(** * CanvasLayer.js: a shallow embedding and its verified properties

    The development follows [src/js/CanvasLayer.js]: the tile helpers
    ([getTileRow], [getTileColumn], [getTileStats]), the pixel codec
    ([pad], [decodeDate]), and the layer object with its methods
    ([constructor], [_setMap], [show], [hide], [forceUpdate], [_update],
    [_clear], [getTile], [filterData]).

    Conventions of the embedding:
    - a JavaScript number that is an integer is a [Z]; a number that may be
      [NaN] is an [option Z] with [None] for [NaN];
    - an array read [a[i]] is the list lookup [a !! i], with [None] for
      [undefined];
    - geographic quantities (resolution, extent, grid origin) are exact
      rationals [Q], where the source computes in doubles (see [floor_div]);
    - a method is a function of the receiver [this] in the monad [M], which
      threads the layer object, logs the calls made on the canvas context and
      on the network, and can fail.

    [drawToCanvas] and the two inverse projections [longFromTilePosition]
    and [latFromTilePosition] go through [Math.exp], [Math.atan] and the
    [toScreen] of the host map; they are not embedded. What reaches
    [drawToCanvas] is the [Image] that [onreadystatechange] creates. *)

From Equations Require Import Equations.
From Stdlib Require Import Ascii String QArith Qround Qpower Lqa.
From stdpp Require Import base numbers list strings pretty.

Open Scope Z_scope.

(** ** JavaScript primitives used by the source *)

Module Js.

(** Numbers that may be [NaN]. Arithmetic propagates [NaN]. *)
Definition num := option Z.

Definition lift2 (f : Z → Z → Z) (a b : num) : num :=
  x ← a; y ← b; Some (f x y).

Definition add : num → num → num := lift2 Z.add.
Definition sub : num → num → num := lift2 Z.sub.
Definition mul : num → num → num := lift2 Z.mul.

(** [a % b] keeps the sign of the dividend; [x % 0] is [NaN]. *)
Definition rem (a b : num) : num :=
  x ← a; y ← b; if decide (y = 0) then None else Some (Z.rem x y).

(** Comparisons with [NaN] are false. *)
Definition ge (a b : num) : bool :=
  match a, b with Some x, Some y => bool_decide (y ≤ x) | _, _ => false end.
Definition le (a b : num) : bool :=
  match a, b with Some x, Some y => bool_decide (x ≤ y) | _, _ => false end.
Definition gt (a b : num) : bool :=
  match a, b with Some x, Some y => bool_decide (y < x) | _, _ => false end.

(** [ToString] of an array element: an integer prints in decimal,
    [undefined] prints as its name. *)
Definition to_string (v : option Z) : string :=
  match v with
  | Some n => pretty n
  | None => "undefined"
  end.

(** [String.prototype.slice(start, end)]: a negative index counts from the
    end of the string, indices are clamped to the string, and an absent
    [end] is the length. *)
Definition slice_index (len i : Z) : Z :=
  if decide (i < 0) then Z.max (len + i) 0 else Z.min i len.

Definition slice (s : string) (start : Z) (end_ : option Z) : string :=
  let len := Z.of_nat (String.length s) in
  let from := slice_index len start in
  let to := slice_index len (default len end_) in
  String.substring (Z.to_nat from) (Z.to_nat (Z.max (to - from) 0)) s.

(** [parseInt(string)] with no radix argument: leading white space is
    skipped, then an optional sign, then an optional [0x] prefix selecting
    radix 16; the longest prefix of digits is the value, and no digit at
    all is [NaN]. *)
Definition is_white (c : ascii) : bool :=
  let n := nat_of_ascii c in
  bool_decide (n = 32 ∨ 9 ≤ n ≤ 13)%nat.

Fixpoint skip_white (s : string) : string :=
  match s with
  | String c s' => if is_white c then skip_white s' else s
  | EmptyString => s
  end.

Definition digit_value (radix : Z) (c : ascii) : option Z :=
  let n := Z.of_nat (nat_of_ascii c) in
  let d :=
    if decide (48 ≤ n ≤ 57) then Some (n - 48)
    else if decide (97 ≤ n ≤ 122) then Some (n - 87)
    else if decide (65 ≤ n ≤ 90) then Some (n - 55)
    else None in
  v ← d; if decide (v < radix) then Some v else None.

Fixpoint digits (radix : Z) (s : string) (acc : num) : num :=
  match s with
  | String c s' =>
      match digit_value radix c with
      | Some d => digits radix s' (Some (radix * default 0 acc + d))
      | None => acc
      end
  | EmptyString => acc
  end.

Definition unsigned (s : string) : num :=
  match s with
  | String "0" (String "x" s') | String "0" (String "X" s') => digits 16 s' None
  | _ => digits 10 s None
  end.

Definition parseInt (s : string) : num :=
  match skip_white s with
  | String "-" s' => Z.opp <$> unsigned s'
  | String "+" s' => unsigned s'
  | s' => unsigned s'
  end.

(** [parseInt(a / b)] for integers [a] and [b]: the quotient is printed
    and its integer part is read back, which truncates toward zero. The
    printed form is positional (no exponent) for every quotient of
    magnitude below [1e21] that is zero or at least [1e-6]; the pixel
    codec stays far inside that range (0 to 178.9 in steps of 1/365). *)
Definition parseInt_quotient (a : num) (b : Z) : num :=
  x ← a; if decide (b = 0) then None else Some (Z.quot x b).

(** A store into a [Uint8ClampedArray]: [NaN] becomes 0 and the value is
    clamped to a byte; a store past the end is ignored, which is what the
    list insert does. *)
Definition uint8_clamp (v : num) : Z :=
  match v with
  | Some n => Z.max 0 (Z.min n 255)
  | None => 0
  end.

(** Values of an options field and of the [visible] property. *)
Inductive value :=
| Undefined
| Null
| Bool (b : bool)
| Number (n : Z)
| NaN
| Str (s : string)
| Object.

Definition truthy (v : value) : bool :=
  match v with
  | Undefined | Null | NaN => false
  | Bool b => b
  | Number n => negb (bool_decide (n = 0))
  | Str s => negb (bool_decide (s = ""))
  | Object => true
  end.

(** [a || b] *)
Definition or (a b : value) : value := if truthy a then a else b.

End Js.

(** ** Helper functions for fetching tiles *)

Record TileInfo := {
  rows : Z;
  cols : Z;
  origin_x : Q;
  origin_y : Q
}.

(** [Math.floor(a / b)] on rationals; a zero divisor gives no finite
    number in JavaScript, which is [None] here. The quotient is exact, where
    the source rounds the difference, the product and the quotient to a
    double each: for a point that lies on a tile boundary up to that
    rounding, the index of the source can differ by one from the index
    here. What is proved below about the indices is their order, which
    rounding keeps (rounded subtraction and division and [Math.floor] are
    monotone); everywhere else the indices are taken as given. *)
Definition floor_div (a b : Q) : option Z :=
  if Qeq_bool b 0 then None else Some (Qfloor (a / b)).

Definition getTileRow (tileInfo : TileInfo) (level : Z) (latitude resolution : Q)
  : option Z :=
  let tileSizeInMapUnits := (inject_Z (rows tileInfo) * resolution)%Q in
  let origin := origin_y tileInfo in
  floor_div (origin - latitude)%Q tileSizeInMapUnits.

Definition getTileColumn (tileInfo : TileInfo) (level : Z) (longitude resolution : Q)
  : option Z :=
  let tileSizeInMapUnits := (inject_Z (cols tileInfo) * resolution)%Q in
  let origin := origin_x tileInfo in
  floor_div (longitude - origin)%Q tileSizeInMapUnits.

Record Stat := { x : Z; y : Z; z : Z }.

(** The inner loop of [getTileStats]:
    [for (var row = rowMin; row <= rowMax; row++) stats.push(...)]. *)
Equations? getTileStats_rows (col row rowMax level : Z) (stats : list Stat)
  : list Stat by wf (Z.to_nat (rowMax + 1 - row)) lt :=
  getTileStats_rows col row rowMax level stats with decide (row ≤ rowMax) => {
    | left _ :=
        getTileStats_rows col (row + 1) rowMax level
          (stats ++ [{| x := col; y := row; z := level |}]);
    | right _ := stats }.
Proof. lia. Qed.

(** The outer loop: [for (var col = colMin; col <= colMax; col++)]. *)
Equations? getTileStats_cols (col colMax rowMin rowMax level : Z) (stats : list Stat)
  : list Stat by wf (Z.to_nat (colMax + 1 - col)) lt :=
  getTileStats_cols col colMax rowMin rowMax level stats with decide (col ≤ colMax) => {
    | left _ :=
        getTileStats_cols (col + 1) colMax rowMin rowMax level
          (getTileStats_rows col rowMin rowMax level stats);
    | right _ := stats }.
Proof. lia. Qed.

Definition getTileStats (colMin colMax rowMin rowMax level : Z) : list Stat :=
  getTileStats_cols colMin colMax rowMin rowMax level [].

(** ** The pixel codec *)

(** [pad]: force numbers to be at least 3 digits. *)
Definition pad (number : option Z) : string :=
  let str := "00" +:+ Js.to_string number in
  Js.slice str (Z.of_nat (String.length str) - 3) None.

Record Decoded := {
  confidence : Js.num;
  intensity : Js.num;
  date : Js.num
}.

(** [decodeDate]: [pixel] is the array of the r, g, b, a values. *)
Definition decodeDate (pixel : list Z) : Decoded :=
  let totalDays := Js.add (Js.mul (pixel !! 0%nat) (Some 255)) (pixel !! 1%nat) in
  let yearAsInt := Js.add (Js.parseInt_quotient totalDays 365) (Some 15) in
  let year := Js.mul yearAsInt (Some 1000) in
  let julianDay := Js.rem totalDays (Some 365) in
  let date := Js.add year julianDay in
  let band3Str := pad (pixel !! 2%nat) in
  let confidence := Js.sub (Js.parseInt band3Str) (Some 1) in
  let rawIntensity := Js.parseInt (Js.slice band3Str 1 (Some 3)) in
  let intensity := Js.mul rawIntensity (Some 50) in
  let intensity := if Js.gt intensity (Some 255) then Some 255 else intensity in
  {| confidence := confidence; intensity := intensity; date := date |}.

(** The intermediate values of [decodeDate] that the codec contract names. *)
Definition totalDays (pixel : list Z) : Js.num :=
  Js.add (Js.mul (pixel !! 0%nat) (Some 255)) (pixel !! 1%nat).

Definition yearAsInt (pixel : list Z) : Js.num :=
  Js.add (Js.parseInt_quotient (totalDays pixel) 365) (Some 15).

Definition rawIntensity (pixel : list Z) : Js.num :=
  Js.parseInt (Js.slice (pad (pixel !! 2%nat)) 1 (Some 3)).

(** ** The layer object and the host map *)

Record Extent := { xmin : Q; xmax : Q; ymin : Q; ymax : Q }.

(** What the layer reads from the host map: [map.width], [map.height],
    [map.getResolution()], [map.getLevel()], [map.extent] and
    [map.__tileInfo]. *)
Record Map := {
  map_width : Z;
  map_height : Z;
  getResolution : Q;
  getLevel : Z;
  extent : Extent;
  __tileInfo : TileInfo
}.

(** The canvas element: its [style.display], its size and its bitmap, four
    bytes per pixel. *)
Record Canvas := {
  display : string;
  width : Z;
  height : Z;
  bitmap : list Z
}.

Record CanvasLayer := {
  minDateValue : Z;
  maxDateValue : Z;
  visible : Js.value;
  loaded : bool;
  _map : option Map;
  _element : option Canvas
}.

(** A tile request as [getTile] issues it: the URL of the GET and the values
    its callbacks close over. *)
Record TileRequest := {
  url : string;
  req_level : Z;
  req_row : Z;
  req_col : Z;
  rowFactor : Z;
  colFactor : Z
}.

(** Calls that leave the layer: on the canvas context and on the network. *)
Inductive Call :=
| ClearRect (x0 y0 w h : Z)
| XhrSend (request : TileRequest).

Inductive Failure :=
| TypeError          (* a property read on [null] or [undefined] *)
| NonFiniteTileIndex (* a tile index that is [NaN] or infinite: the tile
                        size in map units is zero; the loops over such
                        bounds are outside this model *).

Inductive Outcome (A : Type) :=
| Returned (a : A) (this : CanvasLayer) (calls : list Call)
| Failed (e : Failure).
Arguments Returned {A} a this calls.
Arguments Failed {A} e.

(** Methods: the receiver goes in, the result, the updated receiver and the
    calls made come out. *)
Definition M (A : Type) := CanvasLayer → Outcome A.

Definition ret {A} (a : A) : M A := λ this, Returned a this [].

Definition bind {A B} (m : M A) (k : A → M B) : M B := λ this,
  match m this with
  | Returned a this' calls =>
      match k a this' with
      | Returned b this'' calls' => Returned b this'' (calls ++ calls')
      | Failed e => Failed e
      end
  | Failed e => Failed e
  end.

Notation "'do' a <- m ; k" := (bind m (λ a, k))
  (at level 10, a name, m at level 100, k at level 200).
Notation "m ;; k" := (bind m (λ _, k))
  (at level 100, k at level 200, right associativity).

Definition get : M CanvasLayer := λ this, Returned this this [].
Definition put (this' : CanvasLayer) : M unit := λ _, Returned tt this' [].
Definition call (c : Call) : M unit := λ this, Returned tt this [c].
Definition throw {A} (e : Failure) : M A := λ _, Failed e.

(** [stats.forEach(f, this)] *)
Fixpoint forEach {A} (f : A → M unit) (l : list A) : M unit :=
  match l with
  | [] => ret tt
  | a :: l' => f a ;; forEach f l'
  end.

Definition set_visible (v : Js.value) : M unit :=
  do this <- get;
  put {| minDateValue := minDateValue this; maxDateValue := maxDateValue this;
         visible := v; loaded := loaded this;
         _map := _map this; _element := _element this |}.

Definition set_element (c : option Canvas) : M unit :=
  do this <- get;
  put {| minDateValue := minDateValue this; maxDateValue := maxDateValue this;
         visible := visible this; loaded := loaded this;
         _map := _map this; _element := c |}.

Definition set_map (m : option Map) : M unit :=
  do this <- get;
  put {| minDateValue := minDateValue this; maxDateValue := maxDateValue this;
         visible := visible this; loaded := loaded this;
         _map := m; _element := _element this |}.

Definition set_display (d : string) (canvas : Canvas) : Canvas :=
  {| display := d; width := width canvas; height := height canvas;
     bitmap := bitmap canvas |}.

(** [context.clearRect(0, 0, canvas.width, canvas.height)]: the rectangle is
    the whole bitmap, which becomes transparent black. *)
Definition clearRect_all (canvas : Canvas) : Canvas :=
  {| display := display canvas; width := width canvas; height := height canvas;
     bitmap := replicate (length (bitmap canvas)) 0 |}.

(** The argument of the constructor: [options.visible] is a property read,
    which is a [TypeError] when [options] itself is [undefined] or [null]. *)
Inductive Options :=
| NoOptions
| OptionsObject (visible_field : Js.value).

(** [constructor]; [this.onLoad(this)] is the inherited notification of the
    host and leaves the fields alone. *)
Definition constructor (options : Options) : option CanvasLayer :=
  match options with
  | NoOptions => None
  | OptionsObject options_visible =>
      Some {| minDateValue := 15000;
              maxDateValue := 16365;
              visible := Js.or options_visible (Js.Bool true);
              loaded := true;
              _map := None;
              _element := None |}
  end.

(** [_setMap]: the canvas is created with the size of the map, shown or not
    after [this.visible]; a new canvas is transparent black. The two
    listeners registered on the map are [_update] and [_clear] below. *)
Definition _setMap (map : Map) : M Canvas :=
  set_map (Some map) ;;
  do this <- get;
  let element :=
    {| display := if Js.truthy (visible this) then "block" else "none";
       width := map_width map;
       height := map_height map;
       bitmap := replicate (Z.to_nat (4 * map_width map * map_height map)) 0 |} in
  set_element (Some element) ;;
  ret element.

Definition _unsetMap : M unit := set_map None.

(** [getTile]: the request is sent; what happens on its completion is
    [onreadystatechange] below. *)
Definition getTile (level row col baseRow baseCol : Z) : M unit :=
  let url := "//wri-tiles.s3.amazonaws.com/glad_test/test2/" +:+ pretty level
             +:+ "/" +:+ pretty col +:+ "/" +:+ pretty row +:+ ".png" in
  let rowFactor := row - baseRow in
  let colFactor := col - baseCol in
  call (XhrSend {| url := url; req_level := level; req_row := row; req_col := col;
                   rowFactor := rowFactor; colFactor := colFactor |}).

(** A tile index that is not finite stops the model. *)
Definition finite (n : option Z) : M Z :=
  match n with
  | Some k => ret k
  | None => throw NonFiniteTileIndex
  end.

(** [_update]: internal method for updating the tiles. *)
Definition _update : M unit :=
  do this <- get;
  if negb (Js.truthy (visible this)) then ret tt else
  match _map this with
  | None => throw TypeError
  | Some map =>
      let resolution := getResolution map in
      let level := getLevel map in
      let extent := extent map in
      do colMin <- finite (getTileColumn (__tileInfo map) level (xmin extent) resolution);
      do colMax <- finite (getTileColumn (__tileInfo map) level (xmax extent) resolution);
      do rowMin <- finite (getTileRow (__tileInfo map) level (ymax extent) resolution);
      do rowMax <- finite (getTileRow (__tileInfo map) level (ymin extent) resolution);
      let stats := getTileStats colMin colMax rowMin rowMax level in
      forEach (λ stat, getTile (z stat) (y stat) (x stat) rowMin colMin) stats
  end.

(** [_clear]: internal method for clearing the tiles. *)
Definition _clear : M unit :=
  do this <- get;
  match Js.truthy (visible this), _element this with
  | true, Some canvas =>
      call (ClearRect 0 0 (width canvas) (height canvas)) ;;
      set_element (Some (clearRect_all canvas))
  | _, _ => ret tt  (* [if (!this.visible || !this._element) return] *)
  end.

Definition show : M unit :=
  do this <- get;
  match _element this with
  | Some canvas =>
      set_element (Some (set_display "block" canvas)) ;;
      set_visible (Js.Bool true) ;;
      _update
  | None => ret tt
  end.

Definition hide : M unit :=
  do this <- get;
  match _element this with
  | Some canvas =>
      set_element (Some (set_display "none" canvas)) ;;
      set_visible (Js.Bool false) ;;
      _clear
  | None => ret tt
  end.

Definition forceUpdate : M unit :=
  do this <- get;
  match _element this with
  | Some _ =>
      if Js.truthy (visible this) then _clear ;; _update else ret tt
  | None => ret tt
  end.

(** The state of the request when its [onreadystatechange] handler runs. *)
Record Xhr := {
  readyState : Z;
  status : Z;
  response : list Z
}.

(** The image that the handler creates: its bytes, and the tile position that
    its [onload] handler passes to [drawToCanvas]. *)
Record Image := {
  src : list Z;
  onload_row : Z;
  onload_col : Z;
  onload_level : Z
}.

(** The [onreadystatechange] handler installed by [getTile]. It creates an
    image to decode on a completed request with status 200, and has no
    [else] branch. Drawing happens only from the [onload] handler of that
    image. *)
Definition onreadystatechange (request : TileRequest) (xhr : Xhr) : M (option Image) :=
  if bool_decide (readyState xhr = 4) && bool_decide (status xhr = 200) then
    let arrayBuffer := response xhr in
    ret (Some {| src := arrayBuffer;
                 onload_row := req_row request;
                 onload_col := req_col request;
                 onload_level := req_level request |})
  else ret None.

(** ** Filtering the tiles *)

(** One turn of the loop of [filterData] at index [i]: the pixel is the
    slice [data.slice(i, i + 4)], and the store goes to [data[i + 3]]. *)
Definition filterData_body (this : CanvasLayer) (i : nat) (data : list Z) : list Z :=
  let values := decodeDate (take 4 (drop i data)) in
  if Js.ge (date values) (Some (minDateValue this))
     && Js.le (date values) (Some (maxDateValue this))
  then <[(i + 3)%nat := Js.uint8_clamp (intensity values)]> data
  else <[(i + 3)%nat := 0]> data.

(** [for (var i = 0; i < data.length; i += 4)] *)
Equations? filterData_loop (this : CanvasLayer) (i : nat) (data : list Z)
  : list Z by wf (length data - i)%nat lt :=
  filterData_loop this i data with decide (i < length data)%nat => {
    | left _ := filterData_loop this (i + 4) (filterData_body this i data);
    | right _ := data }.
Proof.
  unfold filterData_body.
  destruct (_ && _); rewrite length_insert; lia.
Qed.

Definition filterData (this : CanvasLayer) (data : list Z) : list Z :=
  filterData_loop this 0 data.

(** ** Vocabulary of the statements *)

(** A channel value of a [Uint8ClampedArray]. *)
Definition byte (n : Z) : Prop := 0 ≤ n ≤ 255.

#[global] Instance byte_dec (n : Z) : Decision (byte n).
Proof. unfold byte. apply _. Defined.

(** A string made of decimal digits only. *)
Fixpoint all_digits (s : string) : bool :=
  match s with
  | String c s' => bool_decide (is_Some (Js.digit_value 10 c)) && all_digits s'
  | EmptyString => true
  end.

(** What [pad] and the two [parseInt] calls of [decodeDate] do on a blue
    channel value. *)
Definition band3_ok (b : Z) : Prop :=
  String.length (pad (Some b)) = 3%nat
  ∧ all_digits (pad (Some b)) = true
  ∧ Js.parseInt (pad (Some b)) = Some b
  ∧ Js.parseInt (Js.slice (pad (Some b)) 1 (Some 3)) = Some (b mod 100).

#[global] Instance band3_ok_dec (b : Z) : Decision (band3_ok b).
Proof. unfold band3_ok. apply _. Defined.

(** The date test of [filterData] on a decoded date. *)
Definition in_range (this : CanvasLayer) (d : Js.num) : bool :=
  Js.ge d (Some (minDateValue this)) && Js.le d (Some (maxDateValue this)).

(** The filter as a map over the groups of four channels: the alpha of a
    full group is rewritten, a short tail is left as it is. *)
Fixpoint filter_groups (this : CanvasLayer) (data : list Z) : list Z :=
  match data with
  | r :: g :: b :: a :: rest =>
      let values := decodeDate [r; g; b; a] in
      r :: g :: b
        :: (if in_range this (date values)
            then Js.uint8_clamp (intensity values) else 0)
        :: filter_groups this rest
  | short => short
  end.

(** The tile of column [c] and row [r], and the rectangle of tiles in
    column-major order. *)
Definition tile (level c r : Z) : Stat := {| x := c; y := r; z := level |}.

Definition rectangle (colMin colMax rowMin rowMax level : Z) : list Stat :=
  c ← seqZ colMin (colMax + 1 - colMin);
  r ← seqZ rowMin (rowMax + 1 - rowMin);
  [tile level c r].

(** The request that [_update] issues for a tile. *)
Definition request_of (rowMin colMin : Z) (stat : Stat) : TileRequest :=
  {| url := "//wri-tiles.s3.amazonaws.com/glad_test/test2/" +:+ pretty (z stat)
            +:+ "/" +:+ pretty (x stat) +:+ "/" +:+ pretty (y stat) +:+ ".png";
     req_level := z stat; req_row := y stat; req_col := x stat;
     rowFactor := y stat - rowMin; colFactor := x stat - colMin |}.

Definition is_ClearRect (c : Call) : bool :=
  match c with ClearRect _ _ _ _ => true | XhrSend _ => false end.

(** The layer with its [visible] flag and the [display] of its canvas set,
    and nothing else changed: what the first two statements of [show] and
    of [hide] do. *)
Definition with_visibility (shown : bool) (this : CanvasLayer) (canvas : Canvas)
  : CanvasLayer :=
  {| minDateValue := minDateValue this; maxDateValue := maxDateValue this;
     visible := Js.Bool shown; loaded := loaded this;
     _map := _map this;
     _element := Some (set_display (if shown then "block" else "none") canvas) |}.

(** ** Sample objects *)

Definition sample_map : Map :=
  {| map_width := 1; map_height := 1;
     getResolution := 1; getLevel := 5;
     extent := {| xmin := 0; xmax := 300; ymin := 0; ymax := 10 |};
     __tileInfo := {| rows := 256; cols := 256; origin_x := 0; origin_y := 20 |} |}.

(** A visible, attached layer whose canvas shows one opaque red pixel. *)
Definition drawn_layer : CanvasLayer :=
  {| minDateValue := 15000; maxDateValue := 16365;
     visible := Js.Bool true; loaded := true;
     _map := Some sample_map;
     _element := Some {| display := "block"; width := 1; height := 1;
                         bitmap := [255; 0; 0; 255] |} |}.

(** The same layer as [hide] leaves it. *)
Definition hidden_layer : CanvasLayer :=
  {| minDateValue := 15000; maxDateValue := 16365;
     visible := Js.Bool false; loaded := true;
     _map := Some sample_map;
     _element := Some {| display := "none"; width := 1; height := 1;
                         bitmap := [255; 0; 0; 255] |} |}.

(** A layer whose date range is empty. *)
Definition empty_range_layer : CanvasLayer :=
  {| minDateValue := 16000; maxDateValue := 15999;
     visible := Js.Bool true; loaded := true;
     _map := None; _element := None |}.

(** ** The longitude of a tile *)

(** [longFromTilePosition]: [col / Math.pow(2, zoom) * 360 - 180], on
    rationals. *)
Definition longFromTilePosition (col zoom : Z) : Q :=
  (inject_Z col / Qpower 2 zoom * 360 - 180)%Q.

(** The tile size in map units that [getTileColumn] and [getTileRow]
    compute. *)
Definition colSizeInMapUnits (tileInfo : TileInfo) (resolution : Q) : Q :=
  (inject_Z (cols tileInfo) * resolution)%Q.

Definition rowSizeInMapUnits (tileInfo : TileInfo) (resolution : Q) : Q :=
  (inject_Z (rows tileInfo) * resolution)%Q.

(** The seven values that the scaled intensity can take. *)
Definition intensity_levels : list Z := [0; 50; 100; 150; 200; 250; 255].

(** The encoding that [decodeDate] inverts on the date: the number of days
    of a date in the year-and-day form. *)
Definition days_of_date (d : Z) : Z := (d `div` 1000 - 15) * 365 + d `mod` 1000.

(** * Properties *)

(** ** The pixel codec *)

Lemma byte_cases (P : Z → Prop) :
  Forall P (seqZ 0 256) → ∀ b, byte b → P b.
Proof.
  intros HP b Hb. rewrite Forall_forall in HP.
  apply HP, elem_of_seqZ. unfold byte in Hb. lia.
Qed.

Lemma band3_ok_bytes : Forall band3_ok (seqZ 0 256).
Proof.
  refine (bool_decide_eq_true_1 (Forall band3_ok (seqZ 0 256)) _).
  vm_compute. reflexivity.
Qed.

Lemma band3_ok_byte b : byte b → band3_ok b.
Proof. apply byte_cases, band3_ok_bytes. Qed.

Lemma totalDays_bytes r g rest :
  totalDays (r :: g :: rest) = Some (r * 255 + g).
Proof. reflexivity. Qed.

(** [totalDays], [yearAsInt] and [rawIntensity] are the local variables of
    [decodeDate]. *)
Lemma decodeDate_locals pixel :
  date (decodeDate pixel)
  = Js.add (Js.mul (yearAsInt pixel) (Some 1000)) (Js.rem (totalDays pixel) (Some 365))
  ∧ intensity (decodeDate pixel)
    = (let intensity := Js.mul (rawIntensity pixel) (Some 50) in
       if Js.gt intensity (Some 255) then Some 255 else intensity).
Proof. split; reflexivity. Qed.

Lemma totalDays_nonneg r g : byte r → byte g → 0 ≤ r * 255 + g.
Proof. unfold byte. lia. Qed.

(** On four bytes every field of the decoded value is a number, given by
    integer arithmetic on the channels. *)
Lemma decodeDate_bytes r g b a :
  byte r → byte g → byte b →
  decodeDate [r; g; b; a] =
    {| confidence := Some (b - 1);
       intensity := Some (Z.min (b mod 100 * 50) 255);
       date := Some (((r * 255 + g) `div` 365 + 15) * 1000 + (r * 255 + g) `mod` 365) |}.
Proof.
  intros Hr Hg Hb.
  destruct (band3_ok_byte b Hb) as (_ & _ & Hconf & Hraw).
  pose proof (totalDays_nonneg r g Hr Hg) as Hnn.
  unfold decodeDate. cbn [lookup list_lookup].
  rewrite Hconf, Hraw. cbn.
  rewrite Z.quot_div_nonneg, Z.rem_mod_nonneg by lia.
  f_equal. case_bool_decide; f_equal; lia.
Qed.

(** C2. The blue channel 131 encodes confidence class 1 and intensity 31;
    [decodeDate] parses the whole padded string "131" and not its first
    character, so the confidence it returns for this pixel is 130, which is
    neither 0 nor 1. *)
Theorem decodeDate_confidence_131 :
  pad (Some 131) = "131"
  ∧ Js.parseInt (pad (Some 131)) = Some 131
  ∧ confidence (decodeDate [0; 1; 131; 255]) = Some 130.
Proof. repeat split; vm_compute; reflexivity. Qed.

(** C3, as the code has it. The pixel [0, 1, 31, 255] decodes to
    [totalDays = 1], year offset 15 and date 15001; and for every pixel of
    four bytes the year offset is [floor(totalDays / 365) + 15] and the date
    is the year offset times 1000 plus [totalDays mod 365]. *)
Theorem decodeDate_known_vector :
  totalDays [0; 1; 31; 255] = Some 1
  ∧ yearAsInt [0; 1; 31; 255] = Some 15
  ∧ date (decodeDate [0; 1; 31; 255]) = Some 15001
  ∧ ∀ r g b a, byte r → byte g → byte b → byte a →
      totalDays [r; g; b; a] = Some (r * 255 + g)
      ∧ yearAsInt [r; g; b; a] = Some ((r * 255 + g) `div` 365 + 15)
      ∧ date (decodeDate [r; g; b; a]) =
          Some (((r * 255 + g) `div` 365 + 15) * 1000 + (r * 255 + g) `mod` 365).
Proof.
  split; [reflexivity|]. split; [reflexivity|]. split; [reflexivity|].
  intros r g b a Hr Hg Hb _.
  split; [reflexivity|]. split.
  - unfold yearAsInt. rewrite totalDays_bytes. cbn.
    rewrite Z.quot_div_nonneg by (auto using totalDays_nonneg || lia).
    reflexivity.
  - rewrite decodeDate_bytes by assumption. reflexivity.
Qed.

Lemma decodeDate_known_vector_witness :
  byte 200 ∧ byte 101 ∧ byte 131 ∧ byte 255
  ∧ date (decodeDate [200; 101; 131; 255]) = Some 155001.
Proof.
  assert (H200 : byte 200) by (unfold byte; lia).
  assert (H101 : byte 101) by (unfold byte; lia).
  assert (H131 : byte 131) by (unfold byte; lia).
  assert (H255 : byte 255) by (unfold byte; lia).
  refine (conj H200 (conj H101 (conj H131 (conj H255 _)))).
  destruct decodeDate_known_vector as (_ & _ & _ & Hall).
  destruct (Hall 200 101 131 255 H200 H101 H131 H255) as (_ & _ & Hd).
  rewrite Hd. reflexivity.
Defined.

(** C3 as the spec words it does not hold: the date of [0, 1, 31, 255] is
    not 15000. *)
Lemma known_vector_date_is_not_15000 :
  ¬ (totalDays [0; 1; 31; 255] = Some 1
     ∧ yearAsInt [0; 1; 31; 255] = Some 15
     ∧ date (decodeDate [0; 1; 31; 255]) = Some 15000).
Proof. intros (_ & _ & H). vm_compute in H. discriminate H. Qed.

(** C10. On four bytes the decoder always returns numbers: [pad] gives a
    string of exactly three decimal digits, [parseInt] of it is the blue
    channel itself, the raw intensity is the blue channel modulo 100, the
    confidence is the blue channel minus 1, and no field is [NaN]. The
    decoder has no failure result at all: [decodeDate] is a total function
    into [Decoded]. *)
Theorem decodeDate_total r g b a :
  byte r → byte g → byte b → byte a →
  String.length (pad (Some b)) = 3%nat
  ∧ all_digits (pad (Some b)) = true
  ∧ Js.parseInt (pad (Some b)) = Some b
  ∧ rawIntensity [r; g; b; a] = Some (b mod 100)
  ∧ is_Some (yearAsInt [r; g; b; a])
  ∧ confidence (decodeDate [r; g; b; a]) = Some (b - 1)
  ∧ intensity (decodeDate [r; g; b; a]) = Some (Z.min (b mod 100 * 50) 255)
  ∧ is_Some (date (decodeDate [r; g; b; a])).
Proof.
  intros Hr Hg Hb _.
  destruct (band3_ok_byte b Hb) as (Hlen & Hdig & Hconf & Hraw).
  rewrite decodeDate_bytes by assumption. cbn [confidence intensity date].
  repeat split; try assumption; try reflexivity; eauto.
Qed.

Lemma decodeDate_total_witness :
  byte 0 ∧ byte 1 ∧ byte 131 ∧ byte 255
  ∧ confidence (decodeDate [0; 1; 131; 255]) = Some (131 - 1).
Proof.
  assert (H0 : byte 0) by (unfold byte; lia).
  assert (H1 : byte 1) by (unfold byte; lia).
  assert (H131 : byte 131) by (unfold byte; lia).
  assert (H255 : byte 255) by (unfold byte; lia).
  refine (conj H0 (conj H1 (conj H131 (conj H255 _)))).
  exact (proj1 (proj2 (proj2 (proj2 (proj2 (proj2
           (decodeDate_total 0 1 131 255 H0 H1 H131 H255))))))).
Defined.

(** ** The tile rectangle *)

Lemma getTileStats_rows_spec col row rowMax level stats :
  getTileStats_rows col row rowMax level stats =
    stats ++ (tile level col <$> seqZ row (rowMax + 1 - row)).
Proof.
  funelim (getTileStats_rows col row rowMax level stats).
  - match goal with IH : getTileStats_rows _ _ _ _ _ = _ ++ _ |- _ => rewrite IH end.
    rewrite (seqZ_cons row) by lia. rewrite fmap_cons, <- app_assoc.
    repeat f_equal; lia.
  - rewrite seqZ_nil by lia. rewrite app_nil_r. reflexivity.
Qed.

Lemma bind_singleton_fmap {A B} (f : A → B) (l : list A) :
  (a ← l; [f a]) = f <$> l.
Proof. induction l as [|a l IH]; [reflexivity|]. rewrite bind_cons, IH. reflexivity. Qed.

Lemma getTileStats_cols_spec col colMax rowMin rowMax level stats :
  getTileStats_cols col colMax rowMin rowMax level stats =
    stats ++ rectangle col colMax rowMin rowMax level.
Proof.
  funelim (getTileStats_cols col colMax rowMin rowMax level stats).
  - match goal with IH : getTileStats_cols _ _ _ _ _ _ = _ ++ _ |- _ => rewrite IH end.
    rewrite getTileStats_rows_spec. unfold rectangle.
    rewrite (seqZ_cons col) by lia. rewrite bind_cons, bind_singleton_fmap.
    rewrite <- app_assoc. repeat f_equal. lia.
  - unfold rectangle. rewrite (seqZ_nil col) by lia. rewrite app_nil_r. reflexivity.
Qed.

Lemma getTileStats_spec colMin colMax rowMin rowMax level :
  getTileStats colMin colMax rowMin rowMax level =
    rectangle colMin colMax rowMin rowMax level.
Proof. unfold getTileStats. apply getTileStats_cols_spec. Qed.

Lemma elem_of_rectangle colMin colMax rowMin rowMax level s :
  s ∈ rectangle colMin colMax rowMin rowMax level
  ↔ colMin ≤ x s ≤ colMax ∧ rowMin ≤ y s ≤ rowMax ∧ z s = level.
Proof.
  unfold rectangle. rewrite list_elem_of_bind. split.
  - intros (c & Hs & Hc). rewrite bind_singleton_fmap in Hs.
    apply list_elem_of_fmap in Hs as (r & -> & Hr).
    apply elem_of_seqZ in Hc, Hr. cbn. lia.
  - intros (Hx & Hy & Hz). exists (x s). split.
    + rewrite bind_singleton_fmap. apply list_elem_of_fmap.
      exists (y s). split; [destruct s; cbn in *; subst; reflexivity|].
      apply elem_of_seqZ. lia.
    + apply elem_of_seqZ. lia.
Qed.

Lemma NoDup_rectangle colMin colMax rowMin rowMax level :
  NoDup (rectangle colMin colMax rowMin rowMax level).
Proof.
  unfold rectangle. apply NoDup_bind.
  - intros c1 c2 s _ _ H1 H2. rewrite bind_singleton_fmap in H1, H2.
    apply list_elem_of_fmap in H1 as (r1 & -> & _).
    apply list_elem_of_fmap in H2 as (r2 & Heq & _).
    inversion Heq. reflexivity.
  - intros c _. rewrite bind_singleton_fmap. apply NoDup_fmap_2_strong.
    + intros r1 r2 _ _ Heq. inversion Heq. reflexivity.
    + apply NoDup_seqZ.
  - apply NoDup_seqZ.
Qed.

(** Lookup in a concatenation of blocks of one length. *)
Lemma bind_blocks_lookup {A B} (f : A → list B) (N : nat) (cs : list A) :
  (∀ c, length (f c) = N) →
  ∀ i j : nat, (j < N)%nat →
    (cs ≫= f) !! (i * N + j)%nat = cs !! i ≫= λ c, f c !! j.
Proof.
  intros Hlen. induction cs as [|c cs IH]; intros i j Hj.
  - reflexivity.
  - rewrite bind_cons. destruct i as [|i].
    + rewrite lookup_app_l by (rewrite Hlen; lia). reflexivity.
    + rewrite lookup_app_r by (rewrite Hlen; lia). rewrite Hlen.
      replace (S i * N + j - N)%nat with (i * N + j)%nat by lia.
      apply IH, Hj.
Qed.

Lemma rectangle_lookup colMin colMax rowMin rowMax level (i j : nat) :
  colMin + Z.of_nat i ≤ colMax → rowMin + Z.of_nat j ≤ rowMax →
  rectangle colMin colMax rowMin rowMax level
    !! (i * Z.to_nat (rowMax + 1 - rowMin) + j)%nat
  = Some (tile level (colMin + Z.of_nat i) (rowMin + Z.of_nat j)).
Proof.
  intros Hi Hj. unfold rectangle.
  rewrite (bind_blocks_lookup _ (Z.to_nat (rowMax + 1 - rowMin))).
  - rewrite lookup_seqZ_lt by lia. cbn.
    rewrite bind_singleton_fmap, list_lookup_fmap, lookup_seqZ_lt by lia.
    reflexivity.
  - intros c. rewrite bind_singleton_fmap, length_fmap, length_seqZ. reflexivity.
  - lia.
Qed.

(** C7. [getTileStats] returns the tiles of the rectangle, every column
    from [colMin] to [colMax] and within a column every row from [rowMin]
    to [rowMax], bounds included: every tile within the bounds occurs, once,
    and nothing else; the tile of the [i]-th column and [j]-th row sits at
    position [i * (number of rows) + j]; equal bounds give one tile, and a
    minimum above its maximum gives the empty list. *)
Theorem getTileStats_rectangle colMin colMax rowMin rowMax level :
  let stats := getTileStats colMin colMax rowMin rowMax level in
  stats = rectangle colMin colMax rowMin rowMax level
  ∧ (∀ s, s ∈ stats ↔ colMin ≤ x s ≤ colMax ∧ rowMin ≤ y s ≤ rowMax ∧ z s = level)
  ∧ NoDup stats
  ∧ (∀ i j : nat, colMin + Z.of_nat i ≤ colMax → rowMin + Z.of_nat j ≤ rowMax →
       stats !! (i * Z.to_nat (rowMax + 1 - rowMin) + j)%nat
       = Some (tile level (colMin + Z.of_nat i) (rowMin + Z.of_nat j)))
  ∧ (colMin = colMax → rowMin = rowMax → stats = [tile level colMin rowMin])
  ∧ (colMax < colMin ∨ rowMax < rowMin → stats = []).
Proof.
  cbn zeta. rewrite getTileStats_spec.
  split; [reflexivity|].
  split; [intros s; apply elem_of_rectangle|].
  split; [apply NoDup_rectangle|].
  split; [intros i j; apply rectangle_lookup|].
  split.
  - intros <- <-. unfold rectangle.
    replace (colMin + 1 - colMin) with 1 by lia.
    replace (rowMin + 1 - rowMin) with 1 by lia.
    reflexivity.
  - intros [Hc|Hr]; unfold rectangle.
    + rewrite (seqZ_nil colMin) by lia. reflexivity.
    + rewrite (seqZ_nil rowMin) by lia.
      induction (seqZ colMin _) as [|c cs IH]; [reflexivity|].
      rewrite bind_cons, IH. reflexivity.
Qed.

Lemma getTileStats_rectangle_witness :
  (1 + Z.of_nat 1 ≤ 2 ∧ 5 + Z.of_nat 2 ≤ 7
   ∧ getTileStats 1 2 5 7 3 !! 5%nat = Some (tile 3 2 7))
  ∧ (4 = 4 ∧ 9 = 9 ∧ getTileStats 4 4 9 9 0 = [tile 0 4 9])
  ∧ ((2 < 3 ∨ 0 < 0) ∧ getTileStats 3 2 0 0 1 = []).
Proof.
  assert (Hi : 1 + Z.of_nat 1 ≤ 2) by lia.
  assert (Hj : 5 + Z.of_nat 2 ≤ 7) by lia.
  assert (Hlt : 2 < 3 ∨ 0 < 0) by (left; lia).
  split; [|split].
  - refine (conj Hi (conj Hj _)).
    exact (proj1 (proj2 (proj2 (proj2 (getTileStats_rectangle 1 2 5 7 3))))
             1%nat 2%nat Hi Hj).
  - refine (conj eq_refl (conj eq_refl _)).
    exact (proj1 (proj2 (proj2 (proj2 (proj2 (getTileStats_rectangle 4 4 9 9 0)))))
             eq_refl eq_refl).
  - refine (conj Hlt _).
    exact (proj2 (proj2 (proj2 (proj2 (proj2 (getTileStats_rectangle 3 2 0 0 1)))))
             Hlt).
Defined.

(** ** The filter *)

Lemma filterData_body_full this pre r g b a rest :
  filterData_body this (length pre) (pre ++ r :: g :: b :: a :: rest) =
    pre ++ r :: g :: b
      :: (if in_range this (date (decodeDate [r; g; b; a]))
          then Js.uint8_clamp (intensity (decodeDate [r; g; b; a])) else 0)
      :: rest.
Proof.
  unfold filterData_body, in_range.
  rewrite drop_app_length. cbn [take].
  assert (Hins : ∀ v : Z,
    <[(length pre + 3)%nat := v]> (pre ++ r :: g :: b :: a :: rest)
    = pre ++ r :: g :: b :: v :: rest).
  { intros v. rewrite insert_app_r. reflexivity. }
  destruct (_ && _); apply Hins.
Qed.

Lemma filterData_body_short this pre short :
  (length short < 4)%nat →
  filterData_body this (length pre) (pre ++ short) = pre ++ short.
Proof.
  intros Hlen. unfold filterData_body.
  destruct (_ && _); apply list_insert_ge; rewrite length_app; lia.
Qed.

Lemma filterData_loop_step this i data :
  filterData_loop this i data =
    if decide (i < length data)%nat
    then filterData_loop this (i + 4) (filterData_body this i data)
    else data.
Proof.
  rewrite filterData_loop_equation_1. destruct (decide _); reflexivity.
Qed.

Lemma filter_groups_short this short :
  (length short < 4)%nat → filter_groups this short = short.
Proof.
  destruct short as [|r [|g [|b [|a rest]]]]; cbn; intros; try reflexivity; lia.
Qed.

Lemma groups_ind (P : list Z → Prop) :
  (∀ short, (length short < 4)%nat → P short) →
  (∀ r g b a rest, P rest → P (r :: g :: b :: a :: rest)) →
  ∀ data, P data.
Proof.
  intros Hshort Hfull.
  assert (H : ∀ n data, (length data ≤ n)%nat → P data).
  { induction n as [|n IH]; intros data Hlen.
    - apply Hshort. lia.
    - destruct data as [|r [|g [|b [|a rest]]]];
        try (apply Hshort; cbn; lia).
      apply Hfull, IH. cbn in Hlen. lia. }
  intros data. apply (H (length data)). lia.
Qed.

Lemma filterData_loop_groups this suf :
  ∀ pre, filterData_loop this (length pre) (pre ++ suf) = pre ++ filter_groups this suf.
Proof.
  induction suf as [short Hshort | r g b a rest IH] using groups_ind; intros pre.
  - rewrite filter_groups_short by assumption.
    rewrite filterData_loop_step. case_decide; [|reflexivity].
    rewrite filterData_body_short by assumption.
    rewrite filterData_loop_step. case_decide; [|reflexivity].
    rewrite length_app in *. lia.
  - rewrite filterData_loop_step. rewrite decide_True by (rewrite length_app; cbn; lia).
    rewrite filterData_body_full. cbn [filter_groups].
    set (v := if in_range _ _ then _ else _).
    replace (pre ++ r :: g :: b :: v :: rest) with ((pre ++ [r; g; b; v]) ++ rest)
      by (rewrite <- app_assoc; reflexivity).
    replace (length pre + 4)%nat with (length (pre ++ [r; g; b; v]))
      by (rewrite length_app; reflexivity).
    rewrite IH, <- app_assoc. reflexivity.
Qed.

Lemma filterData_groups this data : filterData this data = filter_groups this data.
Proof. apply (filterData_loop_groups this data []). Qed.

Lemma decodeDate_alpha r g b a a' : decodeDate [r; g; b; a] = decodeDate [r; g; b; a'].
Proof. reflexivity. Qed.

Lemma length_filter_groups this data :
  length (filter_groups this data) = length data.
Proof.
  induction data as [short Hshort | r g b a rest IH] using groups_ind.
  - rewrite filter_groups_short by assumption. reflexivity.
  - cbn. rewrite IH. reflexivity.
Qed.

Lemma filter_groups_idemp this data :
  filter_groups this (filter_groups this data) = filter_groups this data.
Proof.
  induction data as [short Hshort | r g b a rest IH] using groups_ind.
  - rewrite (filter_groups_short this short Hshort).
    apply filter_groups_short, Hshort.
  - cbn [filter_groups]. rewrite IH.
    rewrite (decodeDate_alpha r g b _ a). reflexivity.
Qed.

(** Positions other than the fourth of a group keep their value. *)
Lemma filter_groups_lookup_rgb this data (p : nat) :
  (p mod 4 ≠ 3)%nat → filter_groups this data !! p = data !! p.
Proof.
  revert p. induction data as [short Hshort | r g b a rest IH] using groups_ind;
    intros p Hp.
  - rewrite filter_groups_short by assumption. reflexivity.
  - cbn [filter_groups].
    destruct p as [|[|[|[|p]]]]; try reflexivity.
    + exfalso. apply Hp. reflexivity.
    + cbn [lookup list_lookup]. apply IH.
      intros Hm. apply Hp.
      replace (S (S (S (S p)))) with (p + 1 * 4)%nat by lia.
      rewrite Nat.Div0.mod_add. exact Hm.
Qed.

(** The fourth position of group [k] receives the value computed from the
    group. *)
Lemma filter_groups_lookup_alpha this data (k : nat) r g b a :
  data !! (4 * k)%nat = Some r → data !! (4 * k + 1)%nat = Some g →
  data !! (4 * k + 2)%nat = Some b → data !! (4 * k + 3)%nat = Some a →
  filter_groups this data !! (4 * k + 3)%nat =
    Some (if in_range this (date (decodeDate [r; g; b; a]))
          then Js.uint8_clamp (intensity (decodeDate [r; g; b; a])) else 0).
Proof.
  revert data. induction k as [|k IH]; intros data Hr Hg Hb Ha.
  - destruct data as [|r' [|g' [|b' [|a' rest]]]]; try discriminate.
    cbn in Hr, Hg, Hb, Ha. simplify_eq. reflexivity.
  - replace (4 * S k)%nat with (S (S (S (S (4 * k))))) in * by lia.
    destruct data as [|r' [|g' [|b' [|a' rest]]]]; try discriminate.
    cbn [filter_groups]. cbn [lookup list_lookup Nat.add] in *.
    apply IH; assumption.
Qed.

Lemma in_range_number this d :
  in_range this (Some d)
  = bool_decide (minDateValue this ≤ d ≤ maxDateValue this).
Proof.
  unfold in_range, Js.ge, Js.le.
  repeat case_bool_decide; try reflexivity; lia.
Qed.

(** C1. In a buffer of bytes, the alpha of every group of four channels
    becomes the decoded intensity when the decoded date lies between
    [minDateValue] and [maxDateValue], both bounds included, and becomes 0
    otherwise; a date equal to a bound is kept, and a date one below the
    minimum or one above the maximum gives alpha 0. *)
Theorem filterData_alpha this data (k : nat) r g b a :
  Forall byte data →
  data !! (4 * k)%nat = Some r → data !! (4 * k + 1)%nat = Some g →
  data !! (4 * k + 2)%nat = Some b → data !! (4 * k + 3)%nat = Some a →
  ∃ d i,
    date (decodeDate [r; g; b; a]) = Some d
    ∧ intensity (decodeDate [r; g; b; a]) = Some i
    ∧ filterData this data !! (4 * k + 3)%nat
      = Some (if bool_decide (minDateValue this ≤ d ≤ maxDateValue this) then i else 0)
    ∧ (minDateValue this ≤ d ≤ maxDateValue this →
         filterData this data !! (4 * k + 3)%nat = Some i)
    ∧ (¬ minDateValue this ≤ d ≤ maxDateValue this →
         filterData this data !! (4 * k + 3)%nat = Some 0)
    ∧ (minDateValue this ≤ maxDateValue this →
         d = minDateValue this ∨ d = maxDateValue this →
         filterData this data !! (4 * k + 3)%nat = Some i)
    ∧ (d = minDateValue this - 1 ∨ d = maxDateValue this + 1 →
         filterData this data !! (4 * k + 3)%nat = Some 0).
Proof.
  intros Hbytes Hr Hg Hb Ha.
  assert (Hbr : byte r) by (eapply Forall_lookup_1; eassumption).
  assert (Hbg : byte g) by (eapply Forall_lookup_1; eassumption).
  assert (Hbb : byte b) by (eapply Forall_lookup_1; eassumption).
  pose proof (filter_groups_lookup_alpha this data k r g b a Hr Hg Hb Ha) as Hk.
  rewrite <- filterData_groups in Hk.
  rewrite decodeDate_bytes in Hk |- * by assumption.
  cbn [date intensity] in Hk |- *.
  rewrite in_range_number in Hk.
  set (d := ((r * 255 + g) `div` 365 + 15) * 1000 + (r * 255 + g) `mod` 365) in *.
  set (i := Z.min (b `mod` 100 * 50) 255) in *.
  assert (Hclamp : Js.uint8_clamp (Some i) = i).
  { unfold Js.uint8_clamp, i. pose proof (Z.mod_pos_bound b 100). lia. }
  rewrite Hclamp in Hk.
  exists d, i. split; [reflexivity|]. split; [reflexivity|].
  split; [exact Hk|].
  repeat split; intros; rewrite Hk.
  - rewrite bool_decide_eq_true_2 by assumption. reflexivity.
  - rewrite bool_decide_eq_false_2 by assumption. reflexivity.
  - rewrite bool_decide_eq_true_2 by lia. reflexivity.
  - rewrite bool_decide_eq_false_2 by lia. reflexivity.
Qed.

(** The date of [0, 0, 131, 7] is 15000, the minimum of the default range:
    its alpha becomes the intensity, 255. *)
Lemma filterData_alpha_witness :
  Forall byte [0; 0; 131; 7]
  ∧ minDateValue drawn_layer ≤ maxDateValue drawn_layer
  ∧ date (decodeDate [0; 0; 131; 7]) = Some (minDateValue drawn_layer)
  ∧ filterData drawn_layer [0; 0; 131; 7] !! 3%nat = Some 255.
Proof.
  assert (Hbytes : Forall byte [0; 0; 131; 7]).
  { repeat constructor; unfold byte; lia. }
  assert (Hle : minDateValue drawn_layer ≤ maxDateValue drawn_layer)
    by (cbn; lia).
  refine (conj Hbytes (conj Hle (conj eq_refl _))).
  destruct (filterData_alpha drawn_layer [0; 0; 131; 7] 0 0 0 131 7
              Hbytes eq_refl eq_refl eq_refl eq_refl)
    as (d & i & Hd & Hi & _ & _ & _ & Hbound & _).
  vm_compute in Hd, Hi. injection Hd as <-. injection Hi as <-.
  apply Hbound; [exact Hle | left; reflexivity].
Defined.

(** C6. [filterData] returns a buffer of the same length in which every
    position other than the fourth of a group holds what it held before; a
    second pass leaves those positions as they were and returns what the
    first pass returned. *)
Theorem filterData_rgb_frame this data :
  length (filterData this data) = length data
  ∧ (∀ p : nat, (p mod 4 ≠ 3)%nat → filterData this data !! p = data !! p)
  ∧ (∀ p : nat, (p mod 4 ≠ 3)%nat →
       filterData this (filterData this data) !! p = data !! p)
  ∧ filterData this (filterData this data) = filterData this data.
Proof.
  rewrite !filterData_groups.
  assert (Hidem := filter_groups_idemp this data).
  split; [apply length_filter_groups|].
  split; [intros p Hp; apply filter_groups_lookup_rgb, Hp|].
  split; [|exact Hidem].
  intros p Hp. rewrite Hidem. apply filter_groups_lookup_rgb, Hp.
Qed.

Lemma filterData_rgb_frame_witness :
  (2 mod 4 ≠ 3)%nat
  ∧ filterData drawn_layer (filterData drawn_layer [200; 0; 131; 255; 9]) !! 2%nat
    = Some 131.
Proof.
  assert (Hp : (2 mod 4 ≠ 3)%nat) by (cbn; lia).
  refine (conj Hp _).
  exact (proj1 (proj2 (proj2
           (filterData_rgb_frame drawn_layer [200; 0; 131; 255; 9]))) 2%nat Hp).
Defined.

(** ** The layer *)

Lemma truthy_or_true v : Js.truthy (Js.or v (Js.Bool true)) = true.
Proof. unfold Js.or. destruct (Js.truthy v) eqn:Hv; [exact Hv | reflexivity]. Qed.

(** C9, as the code has it. A layer that the constructor returns is
    never hidden: for every options object [visible] is
    [options.visible || true], that is [options.visible] itself when it is
    truthy and the boolean [true] otherwise, so it is always truthy; it is
    the boolean [true] whenever [options.visible] is a boolean or absent, in
    particular when it is [false]. Every options object does construct a
    layer. *)
Theorem constructor_visible :
  (∀ options layer,
     constructor options = Some layer → Js.truthy (visible layer) = true)
  ∧ (∀ v, ∃ layer,
       constructor (OptionsObject v) = Some layer
       ∧ visible layer = (if Js.truthy v then v else Js.Bool true)
       ∧ Js.truthy (visible layer) = true)
  ∧ (∀ v layer,
       v = Js.Undefined ∨ (∃ b, v = Js.Bool b) →
       constructor (OptionsObject v) = Some layer →
       visible layer = Js.Bool true)
  ∧ (∃ layer,
       constructor (OptionsObject (Js.Bool false)) = Some layer
       ∧ visible layer = Js.Bool true).
Proof.
  split; [|split; [|split]].
  - intros [|v] layer H; [discriminate|].
    injection H as <-. apply truthy_or_true.
  - intros v. eexists. split; [reflexivity|].
    split; [reflexivity | apply truthy_or_true].
  - intros v layer Hv H. injection H as <-. cbn.
    destruct Hv as [-> | [[] ->]]; reflexivity.
  - eexists. split; reflexivity.
Qed.

Lemma constructor_visible_witness :
  constructor (OptionsObject (Js.Bool false))
  = Some {| minDateValue := 15000; maxDateValue := 16365;
            visible := Js.Bool true; loaded := true;
            _map := None; _element := None |}
  ∧ Js.truthy (Js.Bool true) = true.
Proof.
  refine (conj eq_refl _).
  exact (proj1 constructor_visible (OptionsObject (Js.Bool false)) _ eq_refl).
Defined.

(** C9 as the spec words it does not hold: with [options.visible] the
    string "no", which is truthy, the constructed layer has [visible] equal
    to that string and not to [true]. *)
Lemma constructor_visible_can_be_a_string :
  ¬ (∀ v layer,
       constructor (OptionsObject v) = Some layer → visible layer = Js.Bool true)
  ∧ ∃ layer,
      constructor (OptionsObject (Js.Str "no")) = Some layer
      ∧ visible layer = Js.Str "no"
      ∧ visible layer ≠ Js.Bool true.
Proof.
  split.
  - intros H. specialize (H (Js.Str "no") _ eq_refl). discriminate H.
  - eexists. split; [reflexivity|]. split; [reflexivity | discriminate].
Qed.

(** C8. When the handler runs on a request whose status is not 200, or
    that is not complete, it does nothing: no image is created, so nothing
    is decoded or drawn, the layer is as it was, and no call is made. *)
Theorem onreadystatechange_dropped request xhr this :
  readyState xhr ≠ 4 ∨ status xhr ≠ 200 →
  onreadystatechange request xhr this = Returned None this [].
Proof.
  intros H. unfold onreadystatechange.
  destruct H as [H|H].
  - rewrite (bool_decide_eq_false_2 _ H). reflexivity.
  - rewrite (bool_decide_eq_false_2 _ H), andb_false_r. reflexivity.
Qed.

Lemma onreadystatechange_dropped_witness :
  (4 ≠ 4 ∨ 404 ≠ 200)
  ∧ onreadystatechange
      (request_of 0 0 (tile 5 0 0))
      {| readyState := 4; status := 404; response := [] |} drawn_layer
    = Returned None drawn_layer [].
Proof.
  assert (H : 4 ≠ 4 ∨ 404 ≠ 200) by (right; lia).
  refine (conj H _).
  exact (onreadystatechange_dropped (request_of 0 0 (tile 5 0 0))
           {| readyState := 4; status := 404; response := [] |} drawn_layer H).
Defined.

(** A hidden layer ignores updates. *)
Lemma _update_hidden this :
  Js.truthy (visible this) = false → _update this = Returned tt this [].
Proof. intros H. unfold _update, bind, get. rewrite H. reflexivity. Qed.

Lemma forceUpdate_hidden this :
  Js.truthy (visible this) = false → forceUpdate this = Returned tt this [].
Proof.
  intros H. unfold forceUpdate, bind, get.
  destruct (_element this); [rewrite H|]; reflexivity.
Qed.

(** [hide] on an attached layer: the flag and the display change, the
    guard of [_clear] then sees the layer hidden and returns at once. *)
Lemma hide_attached this canvas :
  _element this = Some canvas →
  hide this = Returned tt (with_visibility false this canvas) [].
Proof. intros H. unfold hide, bind, get. rewrite H. reflexivity. Qed.

(** C4. [hide] on a visible, attached layer whose canvas shows one red
    pixel: the layer becomes hidden, and later updates do nothing, but
    [clearRect] is not called and the red pixel is still in the bitmap. *)
Theorem hide_keeps_bitmap :
  hide drawn_layer = Returned tt hidden_layer []
  ∧ bitmap <$> _element hidden_layer = Some [255; 0; 0; 255]
  ∧ _update hidden_layer = Returned tt hidden_layer [].
Proof. repeat split. Qed.

Lemma forEach_getTile rowMin colMin stats this :
  forEach (λ stat, getTile (z stat) (y stat) (x stat) rowMin colMin) stats this
  = Returned tt this (XhrSend ∘ request_of rowMin colMin <$> stats).
Proof.
  induction stats as [|stat stats IH]; [reflexivity|].
  cbn [forEach]. unfold bind.
  change (getTile (z stat) (y stat) (x stat) rowMin colMin this)
    with (Returned tt this [XhrSend (request_of rowMin colMin stat)]).
  cbv beta iota. rewrite IH. reflexivity.
Qed.

(** [_update] on a visible layer with a map whose tile indices are finite:
    one request per tile of the rectangle. *)
Lemma _update_visible this map colMin colMax rowMin rowMax :
  Js.truthy (visible this) = true →
  _map this = Some map →
  getTileColumn (__tileInfo map) (getLevel map) (xmin (extent map)) (getResolution map)
    = Some colMin →
  getTileColumn (__tileInfo map) (getLevel map) (xmax (extent map)) (getResolution map)
    = Some colMax →
  getTileRow (__tileInfo map) (getLevel map) (ymax (extent map)) (getResolution map)
    = Some rowMin →
  getTileRow (__tileInfo map) (getLevel map) (ymin (extent map)) (getResolution map)
    = Some rowMax →
  _update this
  = Returned tt this
      (XhrSend ∘ request_of rowMin colMin
         <$> getTileStats colMin colMax rowMin rowMax (getLevel map)).
Proof.
  intros Hv Hm HcMin HcMax HrMin HrMax.
  unfold _update. unfold bind at 1. unfold get. rewrite Hv, Hm. cbn [negb].
  rewrite HcMin, HcMax, HrMin, HrMax.
  unfold bind, finite, ret. rewrite forEach_getTile. reflexivity.
Qed.

Lemma show_attached this canvas :
  _element this = Some canvas →
  show this = _update (with_visibility true this canvas).
Proof.
  intros H. unfold show. unfold bind at 1. unfold get. rewrite H.
  unfold bind, set_element, set_visible, get, put, with_visibility.
  cbn -[_update]. destruct (_update _); reflexivity.
Qed.

Lemma existsb_is_ClearRect_XhrSend (requests : list TileRequest) :
  existsb is_ClearRect (XhrSend <$> requests) = false.
Proof. induction requests as [|q requests IH]; [reflexivity | exact IH]. Qed.

(** C5, as the code has it. [show] on an attached layer displays the
    canvas, sets the layer visible and runs the tile update, which requests
    every tile of the rectangle of the current extent; it does not clear the
    surface: [clearRect] is not called and the bitmap is what it was. *)
Theorem show_updates_without_clear this canvas map colMin colMax rowMin rowMax :
  _element this = Some canvas →
  _map this = Some map →
  getTileColumn (__tileInfo map) (getLevel map) (xmin (extent map)) (getResolution map)
    = Some colMin →
  getTileColumn (__tileInfo map) (getLevel map) (xmax (extent map)) (getResolution map)
    = Some colMax →
  getTileRow (__tileInfo map) (getLevel map) (ymax (extent map)) (getResolution map)
    = Some rowMin →
  getTileRow (__tileInfo map) (getLevel map) (ymin (extent map)) (getResolution map)
    = Some rowMax →
  ∃ this' calls,
    show this = Returned tt this' calls
    ∧ visible this' = Js.Bool true
    ∧ _element this' = Some (set_display "block" canvas)
    ∧ bitmap <$> _element this' = Some (bitmap canvas)
    ∧ calls = (XhrSend ∘ request_of rowMin colMin
                 <$> getTileStats colMin colMax rowMin rowMax (getLevel map))
    ∧ existsb is_ClearRect calls = false.
Proof.
  intros He Hm HcMin HcMax HrMin HrMax.
  exists (with_visibility true this canvas). eexists.
  split.
  - rewrite (show_attached this canvas He).
    apply (_update_visible _ map colMin colMax rowMin rowMax);
      [reflexivity | exact Hm | assumption..].
  - split; [reflexivity|]. split; [reflexivity|]. split; [reflexivity|].
    split; [reflexivity|].
    rewrite list_fmap_compose. apply existsb_is_ClearRect_XhrSend.
Qed.

Lemma show_updates_without_clear_witness :
  ∃ this' calls,
    show hidden_layer = Returned tt this' calls
    ∧ visible this' = Js.Bool true
    ∧ _element this'
      = Some (set_display "block"
                {| display := "none"; width := 1; height := 1;
                   bitmap := [255; 0; 0; 255] |})
    ∧ bitmap <$> _element this' = Some [255; 0; 0; 255]
    ∧ calls = (XhrSend ∘ request_of 0 0 <$> getTileStats 0 1 0 0 5)
    ∧ existsb is_ClearRect calls = false.
Proof.
  exact (show_updates_without_clear hidden_layer
           {| display := "none"; width := 1; height := 1;
              bitmap := [255; 0; 0; 255] |}
           sample_map 0 1 0 0
           eq_refl eq_refl eq_refl eq_refl eq_refl eq_refl).
Defined.

(** C5 as the spec words it does not hold: [show] on the layer that [hide]
    left behind neither calls [clearRect] nor leaves a cleared bitmap. *)
Lemma show_does_not_clear :
  ¬ ∃ this' calls canvas,
      show hidden_layer = Returned tt this' calls
      ∧ _element this' = Some canvas
      ∧ (existsb is_ClearRect calls = true
         ∨ bitmap canvas = replicate (length (bitmap canvas)) 0).
Proof.
  intros (this' & calls & canvas & Hshow & He & Hclear).
  vm_compute in Hshow. injection Hshow as <- <-.
  injection He as <-.
  destruct Hclear as [H|H]; vm_compute in H; discriminate H.
Qed.

(** * Further properties of the code *)

(** ** Tile indices *)

Lemma floor_div_some a b :
  (0 < b)%Q → floor_div a b = Some (Qfloor (a / b)).
Proof.
  intros Hb. unfold floor_div.
  destruct (Qeq_bool b 0) eqn:E; [|reflexivity].
  apply Qeq_bool_eq in E. rewrite E in Hb. discriminate Hb.
Qed.

Lemma Qfloor_div_mono a a' b :
  (0 < b)%Q → (a <= a')%Q → Qfloor (a / b) ≤ Qfloor (a' / b).
Proof.
  intros Hb Ha. apply Qfloor_resp_le. unfold Qdiv.
  apply Qmult_le_compat_r; [exact Ha|].
  apply Qlt_le_weak, Qinv_lt_0_compat, Hb.
Qed.

Lemma tile_indices_ordered tileInfo level resolution (e : Extent) :
  (0 < colSizeInMapUnits tileInfo resolution)%Q →
  (0 < rowSizeInMapUnits tileInfo resolution)%Q →
  (xmin e <= xmax e)%Q → (ymin e <= ymax e)%Q →
  ∃ colMin colMax rowMin rowMax,
    getTileColumn tileInfo level (xmin e) resolution = Some colMin
    ∧ getTileColumn tileInfo level (xmax e) resolution = Some colMax
    ∧ getTileRow tileInfo level (ymax e) resolution = Some rowMin
    ∧ getTileRow tileInfo level (ymin e) resolution = Some rowMax
    ∧ colMin ≤ colMax ∧ rowMin ≤ rowMax.
Proof.
  intros Hc Hr Hx Hy. unfold getTileColumn, getTileRow.
  fold (colSizeInMapUnits tileInfo resolution).
  fold (rowSizeInMapUnits tileInfo resolution).
  rewrite !floor_div_some by assumption.
  eexists _, _, _, _. repeat (split; [reflexivity|]).
  split; apply Qfloor_div_mono; try assumption; lra.
Qed.

(** X2. With a positive tile size and an extent with [xmin <= xmax] and
    [ymin <= ymax], the four indices that [_update] computes are ordered:
    the column of [xmin] is at most the column of [xmax], and the row of
    [ymax] is at most the row of [ymin] (rows grow southward, so the
    maximal latitude gives the minimal row). *)
Theorem tile_index_order tileInfo level resolution (e : Extent) :
  (0 < colSizeInMapUnits tileInfo resolution)%Q →
  (0 < rowSizeInMapUnits tileInfo resolution)%Q →
  (xmin e <= xmax e)%Q → (ymin e <= ymax e)%Q →
  ∃ colMin colMax rowMin rowMax,
    getTileColumn tileInfo level (xmin e) resolution = Some colMin
    ∧ getTileColumn tileInfo level (xmax e) resolution = Some colMax
    ∧ getTileRow tileInfo level (ymax e) resolution = Some rowMin
    ∧ getTileRow tileInfo level (ymin e) resolution = Some rowMax
    ∧ colMin ≤ colMax ∧ rowMin ≤ rowMax.
Proof. apply tile_indices_ordered. Qed.

Lemma tile_index_order_witness :
  (0 < colSizeInMapUnits (__tileInfo sample_map) 1)%Q
  ∧ (0 < rowSizeInMapUnits (__tileInfo sample_map) 1)%Q
  ∧ (xmin (extent sample_map) <= xmax (extent sample_map))%Q
  ∧ (ymin (extent sample_map) <= ymax (extent sample_map))%Q
  ∧ ∃ colMin colMax rowMin rowMax,
      getTileColumn (__tileInfo sample_map) 5 (xmin (extent sample_map)) 1 = Some colMin
      ∧ getTileColumn (__tileInfo sample_map) 5 (xmax (extent sample_map)) 1 = Some colMax
      ∧ getTileRow (__tileInfo sample_map) 5 (ymax (extent sample_map)) 1 = Some rowMin
      ∧ getTileRow (__tileInfo sample_map) 5 (ymin (extent sample_map)) 1 = Some rowMax
      ∧ colMin ≤ colMax ∧ rowMin ≤ rowMax.
Proof.
  assert (Hc : (0 < colSizeInMapUnits (__tileInfo sample_map) 1)%Q) by reflexivity.
  assert (Hr : (0 < rowSizeInMapUnits (__tileInfo sample_map) 1)%Q) by reflexivity.
  assert (Hx : (xmin (extent sample_map) <= xmax (extent sample_map))%Q)
    by (vm_compute; discriminate).
  assert (Hy : (ymin (extent sample_map) <= ymax (extent sample_map))%Q)
    by (vm_compute; discriminate).
  refine (conj Hc (conj Hr (conj Hx (conj Hy _)))).
  exact (tile_index_order (__tileInfo sample_map) 5 1 (extent sample_map) Hc Hr Hx Hy).
Defined.

(** ** The size of the tile rectangle *)

Lemma length_bind_blocks {A B} (f : A → list B) (N : nat) (cs : list A) :
  (∀ c, length (f c) = N) → length (cs ≫= f) = (length cs * N)%nat.
Proof.
  intros Hlen. induction cs as [|c cs IH]; [reflexivity|].
  rewrite bind_cons, length_app, Hlen, IH. cbn. lia.
Qed.

Lemma length_rectangle colMin colMax rowMin rowMax level :
  length (rectangle colMin colMax rowMin rowMax level)
  = (Z.to_nat (colMax + 1 - colMin) * Z.to_nat (rowMax + 1 - rowMin))%nat.
Proof.
  unfold rectangle.
  rewrite (length_bind_blocks _ (Z.to_nat (rowMax + 1 - rowMin))).
  - rewrite length_seqZ. reflexivity.
  - intros c. rewrite bind_singleton_fmap, length_fmap, length_seqZ. reflexivity.
Qed.

(** X3. [getTileStats] returns as many tiles as the rectangle has: the
    number of columns times the number of rows when the bounds are ordered,
    so at least one tile then. *)
Theorem getTileStats_length colMin colMax rowMin rowMax level :
  colMin ≤ colMax → rowMin ≤ rowMax →
  Z.of_nat (length (getTileStats colMin colMax rowMin rowMax level))
  = (colMax - colMin + 1) * (rowMax - rowMin + 1)
  ∧ (0 < length (getTileStats colMin colMax rowMin rowMax level))%nat.
Proof.
  intros Hc Hr. rewrite getTileStats_spec, length_rectangle. split; nia.
Qed.

Lemma getTileStats_length_witness :
  1 ≤ 2 ∧ 5 ≤ 7
  ∧ Z.of_nat (length (getTileStats 1 2 5 7 3)) = (2 - 1 + 1) * (7 - 5 + 1).
Proof.
  assert (Hc : 1 ≤ 2) by lia. assert (Hr : 5 ≤ 7) by lia.
  refine (conj Hc (conj Hr _)).
  exact (proj1 (getTileStats_length 1 2 5 7 3 Hc Hr)).
Defined.

(** ** More on the pixel codec *)

Lemma date_value_parts t :
  0 ≤ t →
  let d := (t `div` 365 + 15) * 1000 + t `mod` 365 in
  d `div` 1000 = t `div` 365 + 15 ∧ d `mod` 1000 = t `mod` 365.
Proof.
  intros Ht d. pose proof (Z.mod_pos_bound t 365 ltac:(lia)) as Hm.
  assert (Hd : d = 1000 * (t `div` 365 + 15) + t `mod` 365) by (unfold d; lia).
  split.
  - symmetry. apply (Z.div_unique_pos d 1000 _ (t `mod` 365)); [lia | exact Hd].
  - symmetry. apply (Z.mod_unique_pos d 1000 (t `div` 365 + 15)); [lia | exact Hd].
Qed.

Lemma date_value_mono t t' :
  0 ≤ t → 0 ≤ t' → t < t' →
  (t `div` 365 + 15) * 1000 + t `mod` 365
  < (t' `div` 365 + 15) * 1000 + t' `mod` 365.
Proof.
  intros Ht Ht' Hlt.
  pose proof (Z.mod_pos_bound t 365 ltac:(lia)).
  pose proof (Z.mod_pos_bound t' 365 ltac:(lia)).
  pose proof (Z.div_mod t 365 ltac:(lia)).
  pose proof (Z.div_mod t' 365 ltac:(lia)).
  assert (t `div` 365 ≤ t' `div` 365) by (apply Z.div_le_mono; lia).
  nia.
Qed.

(** X4. On four bytes the decoded date has the year-and-day form: its
    thousands are the year offset, between 15 and 193, its last three digits
    are the day within the year, between 0 and 364, and the date itself lies
    between 15000 and 193310. *)
Theorem decodeDate_date_form r g b a :
  byte r → byte g → byte b →
  ∃ d,
    date (decodeDate [r; g; b; a]) = Some d
    ∧ d `div` 1000 = (r * 255 + g) `div` 365 + 15
    ∧ d `mod` 1000 = (r * 255 + g) `mod` 365
    ∧ 15 ≤ d `div` 1000 ≤ 193
    ∧ 0 ≤ d `mod` 1000 ≤ 364
    ∧ 15000 ≤ d ≤ 193310.
Proof.
  intros Hr Hg Hb. rewrite decodeDate_bytes by assumption. cbn [date].
  eexists. split; [reflexivity|].
  pose proof (totalDays_nonneg r g Hr Hg) as Hnn.
  destruct (date_value_parts (r * 255 + g) Hnn) as [Hq Hm].
  cbv zeta in Hq, Hm. rewrite Hq, Hm.
  assert (Hmax : r * 255 + g ≤ 65280) by (unfold byte in *; lia).
  pose proof (Z.mod_pos_bound (r * 255 + g) 365 ltac:(lia)) as Hmb.
  assert (Hq0 : 0 ≤ (r * 255 + g) `div` 365) by (apply Z.div_pos; lia).
  assert (Hq1 : (r * 255 + g) `div` 365 ≤ 178).
  { replace 178 with (65280 `div` 365) by reflexivity. apply Z.div_le_mono; lia. }
  split; [reflexivity|]. split; [reflexivity|].
  split; [lia|]. split; [lia|].
  split; [lia|].
  destruct (decide ((r * 255 + g) `div` 365 = 178)) as [E|E]; [|lia].
  pose proof (Z.div_mod (r * 255 + g) 365 ltac:(lia)). lia.
Qed.

Lemma decodeDate_date_form_witness :
  byte 255 ∧ byte 255 ∧ byte 0
  ∧ ∃ d, date (decodeDate [255; 255; 0; 0]) = Some d
         ∧ d `div` 1000 = (255 * 255 + 255) `div` 365 + 15
         ∧ d `mod` 1000 = (255 * 255 + 255) `mod` 365
         ∧ 15 ≤ d `div` 1000 ≤ 193
         ∧ 0 ≤ d `mod` 1000 ≤ 364
         ∧ 15000 ≤ d ≤ 193310.
Proof.
  assert (H255 : byte 255) by (unfold byte; lia).
  assert (H0 : byte 0) by (unfold byte; lia).
  refine (conj H255 (conj H255 (conj H0 _))).
  exact (decodeDate_date_form 255 255 0 0 H255 H255 H0).
Defined.

(** X5. On bytes the decoded date keeps the order of the day counts
    [r * 255 + g] of two pixels, and the day count is recovered from the
    date as [(date div 1000 - 15) * 365 + date mod 1000]. *)
Theorem decodeDate_date_order r g b a r' g' b' a' d d' :
  byte r → byte g → byte b → byte r' → byte g' → byte b' →
  date (decodeDate [r; g; b; a]) = Some d →
  date (decodeDate [r'; g'; b'; a']) = Some d' →
  (r * 255 + g ≤ r' * 255 + g' ↔ d ≤ d')
  ∧ (r * 255 + g = r' * 255 + g' ↔ d = d')
  ∧ days_of_date d = r * 255 + g.
Proof.
  intros Hr Hg Hb Hr' Hg' Hb'.
  rewrite !decodeDate_bytes by assumption. cbn [date].
  intros [= <-] [= <-].
  pose proof (totalDays_nonneg r g Hr Hg) as Ht.
  pose proof (totalDays_nonneg r' g' Hr' Hg') as Ht'.
  set (t := r * 255 + g) in *. set (t' := r' * 255 + g') in *.
  pose proof (date_value_mono t t' Ht Ht') as Hlt.
  pose proof (date_value_mono t' t Ht' Ht) as Hgt.
  split; [|split].
  - split; intros H.
    + destruct (decide (t = t')) as [->|Hne]; [lia|]. apply Z.lt_le_incl, Hlt. lia.
    + destruct (decide (t ≤ t')) as [?|Hn]; [assumption|].
      assert (t' < t) as Hc by lia. specialize (Hgt Hc). lia.
  - split; intros H; [rewrite H; reflexivity|].
    destruct (Z.lt_trichotomy t t') as [Hc|[Hc|Hc]]; [|exact Hc|].
    + specialize (Hlt Hc). lia.
    + specialize (Hgt Hc). lia.
  - unfold days_of_date.
    destruct (date_value_parts t Ht) as [Hq Hm]. cbv zeta in Hq, Hm.
    rewrite Hq, Hm. pose proof (Z.div_mod t 365 ltac:(lia)). lia.
Qed.

Lemma decodeDate_date_order_witness :
  byte 1 ∧ byte 110 ∧ byte 131 ∧ byte 2 ∧ byte 0
  ∧ date (decodeDate [1; 110; 131; 9]) = Some 16000
  ∧ date (decodeDate [2; 0; 131; 9]) = Some 16145
  ∧ days_of_date 16000 = 1 * 255 + 110.
Proof.
  assert (H1 : byte 1) by (unfold byte; lia).
  assert (H110 : byte 110) by (unfold byte; lia).
  assert (H131 : byte 131) by (unfold byte; lia).
  assert (H2 : byte 2) by (unfold byte; lia).
  assert (H0 : byte 0) by (unfold byte; lia).
  refine (conj H1 (conj H110 (conj H131 (conj H2 (conj H0
            (conj eq_refl (conj eq_refl _))))))).
  exact (proj2 (proj2 (decodeDate_date_order 1 110 131 9 2 0 131 9 16000 16145
                         H1 H110 H131 H2 H0 H131 eq_refl eq_refl))).
Defined.

(** X6. The red channel weighs 255, not 256: a pixel with red [r + 1] and
    green 0 decodes to the same value as the pixel with red [r] and green
    255, so distinct red and green bytes can stand for one date. *)
Theorem decodeDate_red_green_overlap r b a a' :
  byte r → r < 255 → byte b →
  decodeDate [r + 1; 0; b; a] = decodeDate [r; 255; b; a'].
Proof.
  intros Hr Hlt Hb.
  assert (Hr1 : byte (r + 1)) by (unfold byte in *; lia).
  assert (H0 : byte 0) by (unfold byte; lia).
  assert (H255 : byte 255) by (unfold byte; lia).
  rewrite !decodeDate_bytes by assumption.
  replace ((r + 1) * 255 + 0) with (r * 255 + 255) by lia. reflexivity.
Qed.

Lemma decodeDate_red_green_overlap_witness :
  byte 0 ∧ 0 < 255 ∧ byte 131
  ∧ decodeDate [0 + 1; 0; 131; 255] = decodeDate [0; 255; 131; 0].
Proof.
  assert (H0 : byte 0) by (unfold byte; lia).
  assert (Hlt : 0 < 255) by lia.
  assert (H131 : byte 131) by (unfold byte; lia).
  refine (conj H0 (conj Hlt (conj H131 _))).
  exact (decodeDate_red_green_overlap 0 131 255 0 H0 Hlt H131).
Defined.

Lemma intensity_value_level m :
  0 ≤ m < 100 → Z.min (m * 50) 255 ∈ intensity_levels.
Proof.
  intros Hm.
  assert (m = 0 ∨ m = 1 ∨ m = 2 ∨ m = 3 ∨ m = 4 ∨ m = 5 ∨ 6 ≤ m)
    as [->|[->|[->|[->|[->|[->|H6]]]]]] by lia;
    try solve [unfold intensity_levels; cbn; repeat constructor].
  rewrite Z.min_r by lia. unfold intensity_levels. repeat constructor.
Qed.

(** X7. On bytes the intensity is one of 0, 50, 100, 150, 200, 250 and
    255: the scaling by 50 saturates as soon as the last two digits of the
    blue channel reach 6, and the intensity is 0 exactly when they are 00. *)
Theorem decodeDate_intensity_levels r g b a :
  byte r → byte g → byte b →
  ∃ i,
    intensity (decodeDate [r; g; b; a]) = Some i
    ∧ i ∈ intensity_levels
    ∧ (i = 255 ↔ 6 ≤ b `mod` 100)
    ∧ (i = 0 ↔ b `mod` 100 = 0).
Proof.
  intros Hr Hg Hb. rewrite decodeDate_bytes by assumption. cbn [intensity].
  eexists. split; [reflexivity|].
  pose proof (Z.mod_pos_bound b 100 ltac:(lia)) as Hm.
  split; [apply intensity_value_level, Hm | split; lia].
Qed.

Lemma decodeDate_intensity_levels_witness :
  byte 0 ∧ byte 1 ∧ byte 203
  ∧ ∃ i, intensity (decodeDate [0; 1; 203; 255]) = Some i
         ∧ i ∈ intensity_levels
         ∧ (i = 255 ↔ 6 ≤ 203 `mod` 100)
         ∧ (i = 0 ↔ 203 `mod` 100 = 0).
Proof.
  assert (H0 : byte 0) by (unfold byte; lia).
  assert (H1 : byte 1) by (unfold byte; lia).
  assert (H203 : byte 203) by (unfold byte; lia).
  refine (conj H0 (conj H1 (conj H203 _))).
  exact (decodeDate_intensity_levels 0 1 203 255 H0 H1 H203).
Defined.

(** X8. A pixel slice that is too short decodes to [NaN] fields instead
    of failing: without a second element the date is [NaN], and without a
    third the confidence and the intensity are [NaN] (the padded text of
    [undefined] is "ned", which holds no digit); with two elements or more
    the date is a number. *)
Theorem decodeDate_short_pixel (pixel : list Z) :
  ((length pixel ≤ 1)%nat → date (decodeDate pixel) = None)
  ∧ ((length pixel ≤ 2)%nat →
       pad (pixel !! 2%nat) = "ned"
       ∧ confidence (decodeDate pixel) = None
       ∧ intensity (decodeDate pixel) = None)
  ∧ ((2 ≤ length pixel)%nat → is_Some (date (decodeDate pixel))).
Proof.
  split; [|split]; intros Hlen.
  - destruct pixel as [|r [|g rest]]; cbn in Hlen; try lia; reflexivity.
  - destruct pixel as [|r [|g [|b rest]]]; cbn in Hlen; try lia;
      repeat split; reflexivity.
  - destruct pixel as [|r [|g rest]]; cbn in Hlen; try lia.
    unfold decodeDate. cbn. eauto.
Qed.

Lemma decodeDate_short_pixel_witness :
  (length [7; 9] ≤ 2)%nat
  ∧ pad ([7; 9] !! 2%nat) = "ned"
  ∧ confidence (decodeDate [7; 9]) = None
  ∧ intensity (decodeDate [7; 9]) = None.
Proof.
  assert (H : (length [7; 9] ≤ 2)%nat) by (cbn; lia).
  refine (conj H _).
  exact (proj1 (proj2 (decodeDate_short_pixel [7; 9])) H).
Defined.

Lemma length_pretty_N_go (n : N) (s : string) :
  (String.length s ≤ String.length (pretty_N_go n s))%nat.
Proof.
  revert s. induction (N.lt_wf_0 n) as [n _ IH]; intros s.
  destruct (decide (n = 0)%N) as [->|Hn].
  - rewrite pretty_N_go_0. lia.
  - rewrite pretty_N_go_step by lia.
    etrans; [|apply IH; apply N.div_lt; lia]. cbn. lia.
Qed.

Lemma length_pretty_N (n : N) : (1 ≤ String.length (pretty n))%nat.
Proof.
  unfold pretty, pretty_N. case_decide; [cbn; lia|].
  rewrite pretty_N_go_step by lia.
  etrans; [|apply length_pretty_N_go]. cbn. lia.
Qed.

Lemma length_to_string (v : option Z) : (1 ≤ String.length (Js.to_string v))%nat.
Proof.
  destruct v as [[|p|p]|]; cbn; try lia.
  - apply (length_pretty_N (N.pos p)).
  - change (1 ≤ S (String.length (pretty p)))%nat. lia.
Qed.

Lemma length_substring (n m : nat) (s : string) :
  (n + m ≤ String.length s)%nat → String.length (String.substring n m s) = m.
Proof.
  revert n m. induction s as [|c s IH]; intros n m H; cbn in H.
  - assert (n = 0%nat) by lia. assert (m = 0%nat) by lia. subst. reflexivity.
  - destruct n as [|n]; cbn.
    + destruct m as [|m]; cbn; [reflexivity|]. rewrite (IH 0%nat m) by lia. reflexivity.
    + apply IH. lia.
Qed.

Lemma substring_all (s : string) : String.substring 0 (String.length s) s = s.
Proof. induction s as [|c s IH]; cbn; [reflexivity|]. rewrite IH. reflexivity. Qed.

Lemma substring_split (n : nat) (s : string) :
  (n ≤ String.length s)%nat →
  s = String.substring 0 n s +:+ String.substring n (String.length s - n) s.
Proof.
  revert n. induction s as [|c s IH]; intros n Hn; cbn in Hn.
  - assert (n = 0%nat) as -> by lia. reflexivity.
  - destruct n as [|n].
    + cbn. rewrite substring_all. reflexivity.
    + change (String c s = String c (String.substring 0 n s
               +:+ String.substring n (String.length s - n) s)).
      f_equal. apply IH. lia.
Qed.

(** X9. [pad] returns the last three characters of "00" followed by the
    number: exactly three characters for every integer and for
    [undefined], so a number of more than three characters is cut. *)
Theorem pad_length (number : option Z) :
  String.length (pad number) = 3%nat
  ∧ ∃ front, "00" +:+ Js.to_string number = front +:+ pad number.
Proof.
  unfold pad, Js.slice, Js.slice_index. cbn [default].
  set (str := "00" +:+ Js.to_string number).
  assert (Hlen : (3 ≤ String.length str)%nat).
  { change (3 ≤ S (S (String.length (Js.to_string number))))%nat.
    pose proof (length_to_string number). lia. }
  rewrite decide_False by lia. rewrite decide_False by lia.
  set (len := String.length str) in *.
  assert (Hfrom : Z.to_nat ((Z.of_nat len - 3) `min` Z.of_nat len) = (len - 3)%nat) by lia.
  assert (Hspan : Z.to_nat ((Z.of_nat len `min` Z.of_nat len
                             - (Z.of_nat len - 3) `min` Z.of_nat len) `max` 0)
                  = (len - (len - 3))%nat) by lia.
  rewrite Hfrom, Hspan. unfold len.
  split.
  - rewrite length_substring; lia.
  - eexists. apply substring_split. lia.
Qed.

(** ** More on the filter *)

Lemma uint8_clamp_byte (v : Js.num) : byte (Js.uint8_clamp v).
Proof. destruct v as [n|]; unfold byte; cbn; lia. Qed.

Lemma filter_groups_bytes this data :
  Forall byte data → Forall byte (filter_groups this data).
Proof.
  induction data as [short Hshort | r g b a rest IH] using groups_ind; intros H.
  - rewrite filter_groups_short by assumption. exact H.
  - cbn [filter_groups].
    apply Forall_cons in H as [Hr H]. apply Forall_cons in H as [Hg H].
    apply Forall_cons in H as [Hb H]. apply Forall_cons in H as [_ H].
    repeat (apply Forall_cons; split; try assumption); [|apply IH, H].
    destruct (in_range _ _); [apply uint8_clamp_byte | unfold byte; lia].
Qed.

(** X10. [filterData] keeps a buffer of bytes a buffer of bytes, and every
    alpha it stores in a full group is one of the seven intensity levels or
    0 when the buffer holds bytes. *)
Theorem filterData_bytes this data :
  Forall byte data →
  Forall byte (filterData this data)
  ∧ ∀ k a, filterData this data !! (4 * k + 3)%nat = Some a → a ∈ intensity_levels.
Proof.
  intros Hbytes. split.
  - rewrite filterData_groups. apply filter_groups_bytes, Hbytes.
  - intros k a Ha.
    assert (Hlen : (4 * k + 3 < length data)%nat).
    { apply lookup_lt_Some in Ha.
      rewrite filterData_groups, length_filter_groups in Ha. exact Ha. }
    destruct (lookup_lt_is_Some_2 data (4 * k)%nat ltac:(lia)) as [r Hr].
    destruct (lookup_lt_is_Some_2 data (4 * k + 1)%nat ltac:(lia)) as [g Hg].
    destruct (lookup_lt_is_Some_2 data (4 * k + 2)%nat ltac:(lia)) as [b Hb].
    destruct (lookup_lt_is_Some_2 data (4 * k + 3)%nat ltac:(lia)) as [a0 Ha0].
    assert (Hbr : byte r) by (eapply Forall_lookup_1; eassumption).
    assert (Hbg : byte g) by (eapply Forall_lookup_1; eassumption).
    assert (Hbb : byte b) by (eapply Forall_lookup_1; eassumption).
    rewrite filterData_groups in Ha.
    pose proof (filter_groups_lookup_alpha this data k r g b a0 Hr Hg Hb Ha0) as Hk.
    rewrite Ha, decodeDate_bytes in Hk by assumption. cbn [date intensity] in Hk.
    pose proof (Z.mod_pos_bound b 100 ltac:(lia)) as Hm.
    set (i := Z.min (b `mod` 100 * 50) 255) in *.
    assert (Ea : a = if in_range this
                          (Some (((r * 255 + g) `div` 365 + 15) * 1000
                                 + (r * 255 + g) `mod` 365))
                     then Js.uint8_clamp (Some i) else 0) by congruence.
    rewrite Ea. destruct (in_range _ _).
    + replace (Js.uint8_clamp (Some i)) with i by (unfold i; cbn; lia).
      apply intensity_value_level, Hm.
    + unfold intensity_levels. constructor.
Qed.

Lemma filterData_bytes_witness :
  Forall byte [0; 1; 131; 255; 200; 0; 131; 255]
  ∧ Forall byte (filterData drawn_layer [0; 1; 131; 255; 200; 0; 131; 255]).
Proof.
  assert (H : Forall byte [0; 1; 131; 255; 200; 0; 131; 255]).
  { repeat constructor; unfold byte; lia. }
  refine (conj H _).
  exact (proj1 (filterData_bytes drawn_layer _ H)).
Defined.

Lemma filter_groups_app this d1 d2 :
  (length d1 mod 4 = 0)%nat →
  filter_groups this (d1 ++ d2) = filter_groups this d1 ++ filter_groups this d2.
Proof.
  induction d1 as [short Hshort | r g b a rest IH] using groups_ind; intros Hm.
  - rewrite Nat.mod_small in Hm by assumption.
    apply nil_length_inv in Hm as ->. reflexivity.
  - cbn [app filter_groups]. rewrite IH; [reflexivity|].
    cbn [length] in Hm.
    replace (S (S (S (S (length rest))))) with (length rest + 1 * 4)%nat in Hm by lia.
    rewrite Nat.Div0.mod_add in Hm. exact Hm.
Qed.

(** X11. Groups are filtered in isolation: a buffer cut at a group
    boundary can be filtered in two parts, and the results joined. *)
Theorem filterData_app this d1 d2 :
  (length d1 mod 4 = 0)%nat →
  filterData this (d1 ++ d2) = filterData this d1 ++ filterData this d2.
Proof. intros Hm. rewrite !filterData_groups. apply filter_groups_app, Hm. Qed.

Lemma filterData_app_witness :
  (length [0; 1; 131; 255] mod 4 = 0)%nat
  ∧ filterData drawn_layer ([0; 1; 131; 255] ++ [200; 0; 131; 255])
    = filterData drawn_layer [0; 1; 131; 255]
      ++ filterData drawn_layer [200; 0; 131; 255].
Proof.
  assert (H : (length [0; 1; 131; 255] mod 4 = 0)%nat) by reflexivity.
  refine (conj H _).
  exact (filterData_app drawn_layer [0; 1; 131; 255] [200; 0; 131; 255] H).
Defined.

Lemma in_range_empty this d :
  maxDateValue this < minDateValue this → in_range this d = false.
Proof.
  intros H. destruct d as [d|]; [|reflexivity].
  rewrite in_range_number. apply bool_decide_eq_false_2. lia.
Qed.

(** X12. With an empty date range, [maxDateValue] below [minDateValue],
    the filter hides everything: the alpha of every full group becomes 0,
    whatever the buffer holds. *)
Theorem filterData_empty_range this data (k : nat) :
  maxDateValue this < minDateValue this →
  (4 * k + 3 < length data)%nat →
  filterData this data !! (4 * k + 3)%nat = Some 0.
Proof.
  intros Hrange Hlen.
  destruct (lookup_lt_is_Some_2 data (4 * k)%nat ltac:(lia)) as [r Hr].
  destruct (lookup_lt_is_Some_2 data (4 * k + 1)%nat ltac:(lia)) as [g Hg].
  destruct (lookup_lt_is_Some_2 data (4 * k + 2)%nat ltac:(lia)) as [b Hb].
  destruct (lookup_lt_is_Some_2 data (4 * k + 3)%nat ltac:(lia)) as [a Ha].
  rewrite filterData_groups.
  rewrite (filter_groups_lookup_alpha this data k r g b a Hr Hg Hb Ha).
  rewrite in_range_empty by assumption. reflexivity.
Qed.

Lemma filterData_empty_range_witness :
  maxDateValue empty_range_layer < minDateValue empty_range_layer
  ∧ (4 * 0 + 3 < length [1; 110; 131; 255])%nat
  ∧ filterData empty_range_layer [1; 110; 131; 255] !! (4 * 0 + 3)%nat = Some 0.
Proof.
  assert (H1 : maxDateValue empty_range_layer < minDateValue empty_range_layer)
    by (cbn; lia).
  assert (H2 : (4 * 0 + 3 < length [1; 110; 131; 255])%nat) by (cbn; lia).
  refine (conj H1 (conj H2 _)).
  exact (filterData_empty_range empty_range_layer [1; 110; 131; 255] 0 H1 H2).
Defined.

(** X13. The result of [filterData] does not depend on the alpha values
    that come in: two buffers of one length that agree outside the fourth
    position of each group are filtered to the same buffer. *)
Theorem filterData_ignores_alpha this (d1 d2 : list Z) :
  length d1 = length d2 →
  (∀ p : nat, (p mod 4 ≠ 3)%nat → d1 !! p = d2 !! p) →
  filterData this d1 = filterData this d2.
Proof.
  intros Hlen Hagree. rewrite !filterData_groups.
  apply list_eq. intros p.
  destruct (decide (p mod 4 = 3)%nat) as [Hp|Hp].
  - destruct (decide (p < length d1)%nat) as [Hlt|Hge].
    + pose proof (Nat.div_mod_eq p 4) as Hdiv. rewrite Hp in Hdiv.
      set (k := (p / 4)%nat) in *. rewrite Hdiv.
      destruct (lookup_lt_is_Some_2 d1 (4 * k)%nat ltac:(lia)) as [r Hr].
      destruct (lookup_lt_is_Some_2 d1 (4 * k + 1)%nat ltac:(lia)) as [g Hg].
      destruct (lookup_lt_is_Some_2 d1 (4 * k + 2)%nat ltac:(lia)) as [b Hb].
      destruct (lookup_lt_is_Some_2 d1 (4 * k + 3)%nat ltac:(lia)) as [a Ha].
      destruct (lookup_lt_is_Some_2 d2 (4 * k + 3)%nat ltac:(lia)) as [a' Ha'].
      assert (Hr' : d2 !! (4 * k)%nat = Some r).
      { rewrite <- Hagree; [exact Hr|].
        replace (4 * k)%nat with (0 + k * 4)%nat by lia.
        rewrite Nat.Div0.mod_add. cbn. lia. }
      assert (Hg' : d2 !! (4 * k + 1)%nat = Some g).
      { rewrite <- Hagree; [exact Hg|].
        replace (4 * k + 1)%nat with (1 + k * 4)%nat by lia.
        rewrite Nat.Div0.mod_add. cbn. lia. }
      assert (Hb' : d2 !! (4 * k + 2)%nat = Some b).
      { rewrite <- Hagree; [exact Hb|].
        replace (4 * k + 2)%nat with (2 + k * 4)%nat by lia.
        rewrite Nat.Div0.mod_add. cbn. lia. }
      rewrite (filter_groups_lookup_alpha this d1 k r g b a Hr Hg Hb Ha).
      rewrite (filter_groups_lookup_alpha this d2 k r g b a' Hr' Hg' Hb' Ha').
      rewrite (decodeDate_alpha r g b a a'). reflexivity.
    + rewrite !lookup_ge_None_2; [reflexivity| |];
        rewrite length_filter_groups; lia.
  - rewrite !filter_groups_lookup_rgb by assumption. apply Hagree, Hp.
Qed.

Lemma filterData_ignores_alpha_witness :
  length [0; 1; 131; 255; 9] = length [0; 1; 131; 0; 9]
  ∧ filterData drawn_layer [0; 1; 131; 255; 9]
    = filterData drawn_layer [0; 1; 131; 0; 9].
Proof.
  assert (Hlen : length [0; 1; 131; 255; 9] = length [0; 1; 131; 0; 9]) by reflexivity.
  refine (conj Hlen _).
  apply (filterData_ignores_alpha drawn_layer _ _ Hlen).
  intros [|[|[|[|[|p]]]]] Hp; try reflexivity.
  exfalso. apply Hp. reflexivity.
Defined.

(** X14. A layer as the constructor builds it shows exactly the pixels of
    the first two years of the encoding: in a buffer of bytes the alpha of a
    group becomes the intensity when its day count [r * 255 + g] is at most
    729, and 0 otherwise. *)
Theorem default_range_filter v layer data (k : nat) r g b a :
  constructor (OptionsObject v) = Some layer →
  Forall byte data →
  data !! (4 * k)%nat = Some r → data !! (4 * k + 1)%nat = Some g →
  data !! (4 * k + 2)%nat = Some b → data !! (4 * k + 3)%nat = Some a →
  filterData layer data !! (4 * k + 3)%nat
  = Some (if bool_decide (r * 255 + g ≤ 729)
          then Z.min (b `mod` 100 * 50) 255 else 0).
Proof.
  intros Hc Hbytes Hr Hg Hb Ha. injection Hc as <-.
  assert (Hbr : byte r) by (eapply Forall_lookup_1; eassumption).
  assert (Hbg : byte g) by (eapply Forall_lookup_1; eassumption).
  assert (Hbb : byte b) by (eapply Forall_lookup_1; eassumption).
  rewrite filterData_groups.
  rewrite (filter_groups_lookup_alpha _ data k r g b a Hr Hg Hb Ha).
  rewrite decodeDate_bytes by assumption. cbn [date intensity].
  rewrite in_range_number. cbn [minDateValue maxDateValue].
  pose proof (totalDays_nonneg r g Hbr Hbg) as Ht.
  set (t := r * 255 + g) in *.
  pose proof (Z.mod_pos_bound b 100 ltac:(lia)) as Hm.
  replace (Js.uint8_clamp (Some (Z.min (b `mod` 100 * 50) 255)))
    with (Z.min (b `mod` 100 * 50) 255) by (cbn; lia).
  assert (Hlow : 15000 ≤ (t `div` 365 + 15) * 1000 + t `mod` 365).
  { pose proof (Z.mod_pos_bound t 365 ltac:(lia)).
    assert (0 ≤ t `div` 365) by (apply Z.div_pos; lia). lia. }
  destruct (decide (t ≤ 729)) as [Hle|Hgt].
  - rewrite (bool_decide_eq_true_2 (t ≤ 729)) by assumption.
    rewrite bool_decide_eq_true_2; [reflexivity|]. split; [exact Hlow|].
    destruct (decide (t = 729)) as [->|Hne]; [vm_compute; discriminate|].
    pose proof (date_value_mono t 729 Ht ltac:(lia) ltac:(lia)) as H.
    change ((729 `div` 365 + 15) * 1000 + 729 `mod` 365) with 16364 in H. lia.
  - rewrite (bool_decide_eq_false_2 (t ≤ 729)) by assumption.
    rewrite bool_decide_eq_false_2; [reflexivity|]. intros [_ Hhigh].
    destruct (decide (t = 730)) as [E|Hne].
    + rewrite E in Hhigh. vm_compute in Hhigh. apply Hhigh. reflexivity.
    + pose proof (date_value_mono 730 t ltac:(lia) Ht ltac:(lia)) as H.
      change ((730 `div` 365 + 15) * 1000 + 730 `mod` 365) with 17000 in H. lia.
Qed.

Lemma default_range_filter_witness :
  filterData
    {| minDateValue := 15000; maxDateValue := 16365;
       visible := Js.or (Js.Bool false) (Js.Bool true); loaded := true;
       _map := None; _element := None |}
    [2; 220; 131; 255] !! (4 * 0 + 3)%nat
  = Some (if bool_decide (2 * 255 + 220 ≤ 729)
          then Z.min (131 `mod` 100 * 50) 255 else 0).
Proof.
  assert (Hbytes : Forall byte [2; 220; 131; 255]).
  { repeat constructor; unfold byte; lia. }
  exact (default_range_filter (Js.Bool false) _ [2; 220; 131; 255] 0 2 220 131 255
           eq_refl Hbytes eq_refl eq_refl eq_refl eq_refl).
Defined.

(** ** More on the layer *)

(** X15. [_clear] on a visible, attached layer calls [clearRect] once, on
    the whole canvas, after which every entry of the bitmap is 0; the size
    of the bitmap, the display of the canvas and the other fields of the
    layer stay as they were, and a second [_clear] leaves the same layer. *)
Theorem _clear_visible this canvas :
  Js.truthy (visible this) = true →
  _element this = Some canvas →
  ∃ this',
    _clear this = Returned tt this' [ClearRect 0 0 (width canvas) (height canvas)]
    ∧ _element this'
      = Some {| display := display canvas; width := width canvas;
                height := height canvas;
                bitmap := replicate (length (bitmap canvas)) 0 |}
    ∧ visible this' = visible this ∧ _map this' = _map this
    ∧ minDateValue this' = minDateValue this
    ∧ maxDateValue this' = maxDateValue this
    ∧ _clear this' = Returned tt this' [ClearRect 0 0 (width canvas) (height canvas)].
Proof.
  intros Hv He. eexists. split.
  - unfold _clear, bind, get. rewrite Hv, He. reflexivity.
  - repeat (split; [reflexivity|]).
    unfold _clear, bind, get. cbn. rewrite Hv. cbn.
    unfold clearRect_all at 1. cbn. rewrite length_replicate. reflexivity.
Qed.

Lemma _clear_visible_witness :
  ∃ this',
    _clear drawn_layer = Returned tt this' [ClearRect 0 0 1 1]
    ∧ _element this'
      = Some {| display := "block"; width := 1; height := 1;
                bitmap := replicate (length [255; 0; 0; 255]) 0 |}
    ∧ visible this' = Js.Bool true ∧ _map this' = Some sample_map
    ∧ minDateValue this' = 15000
    ∧ maxDateValue this' = 16365
    ∧ _clear this' = Returned tt this' [ClearRect 0 0 1 1].
Proof.
  exact (_clear_visible drawn_layer
           {| display := "block"; width := 1; height := 1;
              bitmap := [255; 0; 0; 255] |} eq_refl eq_refl).
Defined.

(** X16. [forceUpdate] on a visible, attached layer whose tile indices are
    finite is the clear-and-update cycle: [clearRect] on the whole canvas
    is the first call, the requests for the tiles of the rectangle follow,
    and the bitmap is left all 0. *)
Theorem forceUpdate_clears_then_updates this canvas map colMin colMax rowMin rowMax :
  Js.truthy (visible this) = true →
  _element this = Some canvas →
  _map this = Some map →
  getTileColumn (__tileInfo map) (getLevel map) (xmin (extent map)) (getResolution map)
    = Some colMin →
  getTileColumn (__tileInfo map) (getLevel map) (xmax (extent map)) (getResolution map)
    = Some colMax →
  getTileRow (__tileInfo map) (getLevel map) (ymax (extent map)) (getResolution map)
    = Some rowMin →
  getTileRow (__tileInfo map) (getLevel map) (ymin (extent map)) (getResolution map)
    = Some rowMax →
  ∃ this',
    forceUpdate this
    = Returned tt this'
        (ClearRect 0 0 (width canvas) (height canvas)
           :: (XhrSend ∘ request_of rowMin colMin
                 <$> getTileStats colMin colMax rowMin rowMax (getLevel map)))
    ∧ bitmap <$> _element this' = Some (replicate (length (bitmap canvas)) 0)
    ∧ visible this' = visible this.
Proof.
  intros Hv He Hm HcMin HcMax HrMin HrMax.
  eexists. split.
  - unfold forceUpdate. unfold bind at 1. unfold get. rewrite He, Hv.
    unfold bind at 1.
    replace (_clear this) with
      (Returned tt
         {| minDateValue := minDateValue this; maxDateValue := maxDateValue this;
            visible := visible this; loaded := loaded this;
            _map := _map this; _element := Some (clearRect_all canvas) |}
         [ClearRect 0 0 (width canvas) (height canvas)])
      by (unfold _clear, bind, get; rewrite Hv, He; reflexivity).
    rewrite (_update_visible _ map colMin colMax rowMin rowMax);
      [reflexivity | exact Hv | exact Hm | assumption..].
  - split; reflexivity.
Qed.

Lemma forceUpdate_clears_then_updates_witness :
  ∃ this',
    forceUpdate drawn_layer
    = Returned tt this'
        (ClearRect 0 0 1 1
           :: (XhrSend ∘ request_of 0 0 <$> getTileStats 0 1 0 0 5))
    ∧ bitmap <$> _element this' = Some (replicate (length [255; 0; 0; 255]) 0)
    ∧ visible this' = Js.Bool true.
Proof.
  exact (forceUpdate_clears_then_updates drawn_layer
           {| display := "block"; width := 1; height := 1;
              bitmap := [255; 0; 0; 255] |}
           sample_map 0 1 0 0
           eq_refl eq_refl eq_refl eq_refl eq_refl eq_refl eq_refl).
Defined.

Lemma _update_returned this this' calls :
  _update this = Returned tt this' calls →
  this' = this
  ∧ existsb is_ClearRect calls = false
  ∧ (calls ≠ [] → Js.truthy (visible this) = true ∧ is_Some (_map this)).
Proof.
  intros H. destruct (Js.truthy (visible this)) eqn:Hv.
  - destruct (_map this) as [map|] eqn:Hm.
    + destruct (getTileColumn (__tileInfo map) (getLevel map) (xmin (extent map))
                  (getResolution map)) as [colMin|] eqn:E1;
      [destruct (getTileColumn (__tileInfo map) (getLevel map) (xmax (extent map))
                   (getResolution map)) as [colMax|] eqn:E2;
       [destruct (getTileRow (__tileInfo map) (getLevel map) (ymax (extent map))
                    (getResolution map)) as [rowMin|] eqn:E3;
        [destruct (getTileRow (__tileInfo map) (getLevel map) (ymin (extent map))
                     (getResolution map)) as [rowMax|] eqn:E4|]|]|].
      * rewrite (_update_visible this map colMin colMax rowMin rowMax
                   Hv Hm E1 E2 E3 E4) in H.
        injection H as <- <-. split; [reflexivity|]. split; [|eauto].
        rewrite list_fmap_compose. apply existsb_is_ClearRect_XhrSend.
      * unfold _update, bind, get in H. rewrite Hv, Hm in H. cbn [negb] in H.
        rewrite E1, E2, E3, E4 in H. discriminate H.
      * unfold _update, bind, get in H. rewrite Hv, Hm in H. cbn [negb] in H.
        rewrite E1, E2, E3 in H. discriminate H.
      * unfold _update, bind, get in H. rewrite Hv, Hm in H. cbn [negb] in H.
        rewrite E1, E2 in H. discriminate H.
      * unfold _update, bind, get in H. rewrite Hv, Hm in H. cbn [negb] in H.
        rewrite E1 in H. discriminate H.
    + unfold _update, bind, get in H. rewrite Hv, Hm in H. discriminate H.
  - rewrite (_update_hidden this Hv) in H. injection H as <- <-.
    split; [reflexivity|]. split; [reflexivity|]. intros Hne. destruct Hne. reflexivity.
Qed.

(** X17. Whenever [_update] returns, the layer is as it was and no call
    of [clearRect] was made: the tile update only sends requests, and it
    sends some only if the layer is visible and has a map. *)
Theorem _update_frame this this' calls :
  _update this = Returned tt this' calls →
  this' = this
  ∧ existsb is_ClearRect calls = false
  ∧ (calls ≠ [] → Js.truthy (visible this) = true ∧ is_Some (_map this)).
Proof. apply _update_returned. Qed.

Lemma _update_frame_witness :
  _update drawn_layer
  = Returned tt drawn_layer (XhrSend ∘ request_of 0 0 <$> getTileStats 0 1 0 0 5)
  ∧ existsb is_ClearRect (XhrSend ∘ request_of 0 0 <$> getTileStats 0 1 0 0 5) = false.
Proof.
  refine (conj eq_refl _).
  exact (proj1 (proj2 (_update_frame drawn_layer drawn_layer
                         (XhrSend ∘ request_of 0 0 <$> getTileStats 0 1 0 0 5)
                         eq_refl))).
Defined.

Lemma fmap_position_rectangle rowMin' colMin' colMin colMax rowMin rowMax level :
  (λ q, (req_col q, req_row q))
    <$> (request_of rowMin' colMin' <$> rectangle colMin colMax rowMin rowMax level)
  = (λ s, (x s, y s)) <$> rectangle colMin colMax rowMin rowMax level.
Proof. rewrite <- list_fmap_compose. reflexivity. Qed.

Lemma NoDup_position_rectangle colMin colMax rowMin rowMax level :
  NoDup ((λ s, (x s, y s)) <$> rectangle colMin colMax rowMin rowMax level).
Proof.
  apply NoDup_fmap_2_strong; [|apply NoDup_rectangle].
  intros s s' Hs Hs' Heq.
  apply elem_of_rectangle in Hs as (_ & _ & Hz).
  apply elem_of_rectangle in Hs' as (_ & _ & Hz').
  destruct s as [sx sy sz], s' as [sx' sy' sz']. cbn in *.
  injection Heq as -> ->. subst. reflexivity.
Qed.

(** X18. On a visible layer whose map has a positive tile size and an
    extent with [xmin <= xmax] and [ymin <= ymax], with [colMin], [colMax],
    [rowMin] and [rowMax] the indices that [getTileColumn] and [getTileRow]
    give for the extent, [_update] returns, leaves the layer as it was and
    sends exactly the requests of the tiles of the rectangle from [colMin]
    to [colMax] and [rowMin] to [rowMax], which is not empty: every tile of
    the rectangle is requested, no tile position is requested twice, the
    number of requests is columns times rows, and the request of a tile has
    the URL [//wri-tiles.s3.amazonaws.com/glad_test/test2/level/col/row.png]
    of that tile at the level of the map, with [rowFactor] and [colFactor]
    its offsets from [rowMin] and [colMin], never negative. *)
Theorem _update_requests this map colMin colMax rowMin rowMax :
  Js.truthy (visible this) = true →
  _map this = Some map →
  (0 < colSizeInMapUnits (__tileInfo map) (getResolution map))%Q →
  (0 < rowSizeInMapUnits (__tileInfo map) (getResolution map))%Q →
  (xmin (extent map) <= xmax (extent map))%Q →
  (ymin (extent map) <= ymax (extent map))%Q →
  getTileColumn (__tileInfo map) (getLevel map) (xmin (extent map)) (getResolution map)
    = Some colMin →
  getTileColumn (__tileInfo map) (getLevel map) (xmax (extent map)) (getResolution map)
    = Some colMax →
  getTileRow (__tileInfo map) (getLevel map) (ymax (extent map)) (getResolution map)
    = Some rowMin →
  getTileRow (__tileInfo map) (getLevel map) (ymin (extent map)) (getResolution map)
    = Some rowMax →
  let requests :=
    request_of rowMin colMin
      <$> getTileStats colMin colMax rowMin rowMax (getLevel map) in
  _update this = Returned tt this (XhrSend <$> requests)
  ∧ colMin ≤ colMax ∧ rowMin ≤ rowMax
  ∧ Z.of_nat (length requests) = (colMax - colMin + 1) * (rowMax - rowMin + 1)
  ∧ NoDup ((λ q, (req_col q, req_row q)) <$> requests)
  ∧ (∀ c r, colMin ≤ c ≤ colMax → rowMin ≤ r ≤ rowMax →
       ∃ q, q ∈ requests ∧ req_col q = c ∧ req_row q = r)
  ∧ ∀ q, q ∈ requests →
      colMin ≤ req_col q ≤ colMax ∧ rowMin ≤ req_row q ≤ rowMax
      ∧ req_level q = getLevel map
      ∧ url q = "//wri-tiles.s3.amazonaws.com/glad_test/test2/"
                +:+ pretty (getLevel map) +:+ "/" +:+ pretty (req_col q)
                +:+ "/" +:+ pretty (req_row q) +:+ ".png"
      ∧ colFactor q = req_col q - colMin ∧ 0 ≤ colFactor q ≤ colMax - colMin
      ∧ rowFactor q = req_row q - rowMin ∧ 0 ≤ rowFactor q ≤ rowMax - rowMin.
Proof.
  intros Hv Hm Hc Hr Hx Hy E1 E2 E3 E4 requests.
  destruct (tile_indices_ordered (__tileInfo map) (getLevel map) (getResolution map)
              (extent map) Hc Hr Hx Hy)
    as (colMin' & colMax' & rowMin' & rowMax' & E1' & E2' & E3' & E4' & Hcol & Hrow).
  rewrite E1 in E1'. rewrite E2 in E2'. rewrite E3 in E3'. rewrite E4 in E4'.
  injection E1' as <-. injection E2' as <-. injection E3' as <-. injection E4' as <-.
  split.
  - rewrite (_update_visible this map colMin colMax rowMin rowMax Hv Hm E1 E2 E3 E4).
    unfold requests. rewrite list_fmap_compose. reflexivity.
  - split; [exact Hcol|]. split; [exact Hrow|].
    unfold requests. rewrite getTileStats_spec. split; [|split; [|split]].
    + rewrite length_fmap, length_rectangle. nia.
    + rewrite fmap_position_rectangle. apply NoDup_position_rectangle.
    + intros c r Hcb Hrb.
      exists (request_of rowMin colMin (tile (getLevel map) c r)).
      split; [|split; reflexivity].
      apply list_elem_of_fmap_2, elem_of_rectangle. cbn. lia.
    + intros q Hq. apply list_elem_of_fmap in Hq as (s & -> & Hs).
      apply elem_of_rectangle in Hs as (Hsx & Hsy & Hsz). cbn.
      rewrite Hsz. repeat split; try reflexivity; lia.
Qed.

Lemma _update_requests_witness :
  let requests := request_of 0 0 <$> getTileStats 0 1 0 0 5 in
  _update drawn_layer = Returned tt drawn_layer (XhrSend <$> requests)
  ∧ 0 ≤ 1 ∧ 0 ≤ 0
  ∧ Z.of_nat (length requests) = (1 - 0 + 1) * (0 - 0 + 1)
  ∧ NoDup ((λ q, (req_col q, req_row q)) <$> requests)
  ∧ (∀ c r, 0 ≤ c ≤ 1 → 0 ≤ r ≤ 0 →
       ∃ q, q ∈ requests ∧ req_col q = c ∧ req_row q = r)
  ∧ ∀ q, q ∈ requests →
      0 ≤ req_col q ≤ 1 ∧ 0 ≤ req_row q ≤ 0
      ∧ req_level q = getLevel sample_map
      ∧ url q = "//wri-tiles.s3.amazonaws.com/glad_test/test2/"
                +:+ pretty (getLevel sample_map) +:+ "/" +:+ pretty (req_col q)
                +:+ "/" +:+ pretty (req_row q) +:+ ".png"
      ∧ colFactor q = req_col q - 0 ∧ 0 ≤ colFactor q ≤ 1 - 0
      ∧ rowFactor q = req_row q - 0 ∧ 0 ≤ rowFactor q ≤ 0 - 0.
Proof.
  assert (Hc : (0 < colSizeInMapUnits (__tileInfo sample_map) (getResolution sample_map))%Q)
    by reflexivity.
  assert (Hr : (0 < rowSizeInMapUnits (__tileInfo sample_map) (getResolution sample_map))%Q)
    by reflexivity.
  assert (Hx : (xmin (extent sample_map) <= xmax (extent sample_map))%Q)
    by (vm_compute; discriminate).
  assert (Hy : (ymin (extent sample_map) <= ymax (extent sample_map))%Q)
    by (vm_compute; discriminate).
  exact (_update_requests drawn_layer sample_map 0 1 0 0
           eq_refl eq_refl Hc Hr Hx Hy eq_refl eq_refl eq_refl eq_refl).
Defined.

Lemma _update_no_map this :
  Js.truthy (visible this) = true → _map this = None →
  _update this = Failed TypeError.
Proof. intros Hv Hm. unfold _update, bind, get. rewrite Hv, Hm. reflexivity. Qed.

Lemma show_no_map this canvas :
  _element this = Some canvas → _map this = None → show this = Failed TypeError.
Proof.
  intros He Hm. rewrite (show_attached this canvas He).
  apply _update_no_map; [reflexivity | exact Hm].
Qed.

Lemma forceUpdate_no_map this canvas :
  Js.truthy (visible this) = true → _element this = Some canvas → _map this = None →
  forceUpdate this = Failed TypeError.
Proof.
  intros Hv He Hm. unfold forceUpdate. unfold bind at 1. unfold get.
  rewrite He, Hv. unfold bind at 1.
  replace (_clear this) with
    (Returned tt
       {| minDateValue := minDateValue this; maxDateValue := maxDateValue this;
          visible := visible this; loaded := loaded this;
          _map := _map this; _element := Some (clearRect_all canvas) |}
       [ClearRect 0 0 (width canvas) (height canvas)])
    by (unfold _clear, bind, get; rewrite Hv, He; reflexivity).
  rewrite _update_no_map; [reflexivity | exact Hv | exact Hm].
Qed.

(** The layer after [_setMap] and [_unsetMap]: the canvas is there, the map
    is not. *)
Lemma setMap_unsetMap this map (m : M unit) :
  ∃ canvas this',
    (do _ <- _setMap map; _unsetMap ;; m) this
    = match m this' with
      | Returned b this'' calls => Returned b this'' calls
      | Failed e => Failed e
      end
    ∧ _element this' = Some canvas ∧ _map this' = None
    ∧ visible this' = visible this.
Proof.
  pose (canvas :=
    {| display := if Js.truthy (visible this) then "block" else "none";
       width := map_width map; height := map_height map;
       bitmap := replicate (Z.to_nat (4 * map_width map * map_height map)) 0 |}).
  exists canvas,
    {| minDateValue := minDateValue this; maxDateValue := maxDateValue this;
       visible := visible this; loaded := loaded this;
       _map := None; _element := Some canvas |}.
  unfold canvas. split; [|split; [|split]].
  - unfold bind at 1.
    unfold _setMap, bind, set_map, set_element, get, put, ret. cbn.
    unfold _unsetMap, set_map, bind, get, put. cbn.
    destruct (m _); reflexivity.
  - reflexivity.
  - reflexivity.
  - reflexivity.
Qed.

(** X19. [_unsetMap] forgets the map and keeps the canvas, so the methods
    still pass their [_element] guard and then read the missing map: after
    [_setMap] and [_unsetMap], [show] throws a [TypeError] from any state,
    and so do [_update] and [forceUpdate] when the layer is visible. *)
Theorem removed_layer_throws this map :
  (do _ <- _setMap map; _unsetMap ;; show) this = Failed TypeError
  ∧ (Js.truthy (visible this) = true →
       (do _ <- _setMap map; _unsetMap ;; _update) this = Failed TypeError
       ∧ (do _ <- _setMap map; _unsetMap ;; forceUpdate) this = Failed TypeError).
Proof.
  split; [|intros Hv; split].
  - destruct (setMap_unsetMap this map show) as (canvas & this' & -> & He & Hm & _).
    rewrite (show_no_map this' canvas He Hm). reflexivity.
  - destruct (setMap_unsetMap this map _update) as (canvas & this' & -> & He & Hm & Hv').
    rewrite _update_no_map; [reflexivity | rewrite Hv'; exact Hv | exact Hm].
  - destruct (setMap_unsetMap this map forceUpdate)
      as (canvas & this' & -> & He & Hm & Hv').
    rewrite (forceUpdate_no_map this' canvas);
      [reflexivity | rewrite Hv'; exact Hv | exact He | exact Hm].
Qed.

Lemma removed_layer_throws_witness :
  Js.truthy (visible drawn_layer) = true
  ∧ (do _ <- _setMap sample_map; _unsetMap ;; _update) drawn_layer = Failed TypeError.
Proof.
  refine (conj eq_refl _).
  exact (proj1 (proj2 (removed_layer_throws drawn_layer sample_map) eq_refl)).
Defined.

(** X20. On an attached layer [hide] followed by [show] does what [show]
    alone does: the same layer results, with the bitmap that was there
    before [hide], and the same requests are sent. *)
Theorem hide_then_show this canvas :
  _element this = Some canvas →
  (hide ;; show) this = show this
  ∧ ∀ this' calls,
      (hide ;; show) this = Returned tt this' calls →
      bitmap <$> _element this' = Some (bitmap canvas)
      ∧ visible this' = Js.Bool true.
Proof.
  intros He.
  assert (Heq : (hide ;; show) this = show this).
  { unfold bind at 1. rewrite (hide_attached this canvas He).
    rewrite (show_attached this canvas He).
    rewrite (show_attached (with_visibility false this canvas)
               (set_display "none" canvas) eq_refl).
    change (with_visibility true (with_visibility false this canvas)
              (set_display "none" canvas))
      with (with_visibility true this canvas).
    destruct (_update _); reflexivity. }
  split; [exact Heq|].
  intros this' calls H. rewrite Heq, (show_attached this canvas He) in H.
  destruct (_update_returned _ _ _ H) as (-> & _). split; reflexivity.
Qed.

Lemma hide_then_show_witness :
  (hide ;; show) drawn_layer = show drawn_layer.
Proof.
  exact (proj1 (hide_then_show drawn_layer
                  {| display := "block"; width := 1; height := 1;
                     bitmap := [255; 0; 0; 255] |} eq_refl)).
Defined.

(** X21. A layer fresh from the constructor that is added to a map gets a
    canvas that is displayed: whatever [options.visible] was, [_setMap]
    takes its [display:block] branch. The canvas has the size of the map
    and a bitmap of four zero bytes per pixel, the layer holds the map and
    the canvas, and its date range is the default one. *)
Theorem new_layer_canvas v layer map :
  constructor (OptionsObject v) = Some layer →
  ∃ canvas this',
    _setMap map layer = Returned canvas this' []
    ∧ _element this' = Some canvas ∧ _map this' = Some map
    ∧ display canvas = "block"
    ∧ width canvas = map_width map ∧ height canvas = map_height map
    ∧ length (bitmap canvas) = Z.to_nat (4 * map_width map * map_height map)
    ∧ Forall (λ n, n = 0) (bitmap canvas)
    ∧ minDateValue this' = 15000 ∧ maxDateValue this' = 16365
    ∧ Js.truthy (visible this') = true.
Proof.
  intros Hc. injection Hc as <-.
  eexists _, _. split.
  - unfold _setMap, bind, set_map, set_element, get, put, ret. cbn.
    rewrite truthy_or_true. reflexivity.
  - cbn. repeat (split; [reflexivity|]).
    split; [apply length_replicate|].
    split; [apply Forall_replicate; reflexivity|].
    repeat (split; [reflexivity|]). apply truthy_or_true.
Qed.

Lemma new_layer_canvas_witness :
  ∃ canvas this',
    _setMap sample_map
      {| minDateValue := 15000; maxDateValue := 16365;
         visible := Js.or (Js.Bool false) (Js.Bool true); loaded := true;
         _map := None; _element := None |}
    = Returned canvas this' []
    ∧ _element this' = Some canvas ∧ _map this' = Some sample_map
    ∧ display canvas = "block"
    ∧ width canvas = map_width sample_map ∧ height canvas = map_height sample_map
    ∧ length (bitmap canvas)
      = Z.to_nat (4 * map_width sample_map * map_height sample_map)
    ∧ Forall (λ n, n = 0) (bitmap canvas)
    ∧ minDateValue this' = 15000 ∧ maxDateValue this' = 16365
    ∧ Js.truthy (visible this') = true.
Proof.
  exact (new_layer_canvas (Js.Bool false) _ sample_map eq_refl).
Defined.

(** ** The longitude of a tile *)

Lemma Qpower_2_pos zoom : (0 < Qpower 2 zoom)%Q.
Proof. apply Qpower_0_lt. reflexivity. Qed.

Lemma longFromTilePosition_mono col col' zoom :
  col ≤ col' →
  (longFromTilePosition col zoom <= longFromTilePosition col' zoom)%Q.
Proof.
  intros H. unfold longFromTilePosition.
  assert (Hd : (inject_Z col / Qpower 2 zoom <= inject_Z col' / Qpower 2 zoom)%Q).
  { unfold Qdiv. apply Qmult_le_compat_r.
    - rewrite <- Zle_Qle. exact H.
    - apply Qlt_le_weak, Qinv_lt_0_compat, Qpower_2_pos. }
  lra.
Qed.

(** X22. [longFromTilePosition] puts column 0 at longitude -180 and, for
    a zoom that is not negative, column [2^zoom] at 180; it grows with the
    column, by [360 / 2^zoom] from one column to the next, so the columns
    from 0 to [2^zoom] stay between -180 and 180. *)
Theorem longFromTilePosition_range col col' zoom :
  (longFromTilePosition 0 zoom == -180)%Q
  ∧ (0 ≤ zoom → (longFromTilePosition (2 ^ zoom) zoom == 180)%Q)
  ∧ (col ≤ col' →
       (longFromTilePosition col zoom <= longFromTilePosition col' zoom)%Q)
  ∧ (longFromTilePosition (col + 1) zoom - longFromTilePosition col zoom
       == 360 / Qpower 2 zoom)%Q
  ∧ (0 ≤ zoom → 0 ≤ col ≤ 2 ^ zoom →
       (-180 <= longFromTilePosition col zoom)%Q
       ∧ (longFromTilePosition col zoom <= 180)%Q).
Proof.
  pose proof (Qpower_2_pos zoom) as Hpos.
  assert (Hne : ¬ (Qpower 2 zoom == 0)%Q) by lra.
  assert (H0 : (longFromTilePosition 0 zoom == -180)%Q).
  { unfold longFromTilePosition. field. exact Hne. }
  assert (H1 : 0 ≤ zoom → (longFromTilePosition (2 ^ zoom) zoom == 180)%Q).
  { intros Hz. unfold longFromTilePosition.
    rewrite (Zpower_Qpower 2 zoom Hz). change (inject_Z 2) with 2%Q.
    field. exact Hne. }
  split; [exact H0|]. split; [exact H1|].
  split; [apply longFromTilePosition_mono|].
  split.
  - unfold longFromTilePosition. rewrite inject_Z_plus. field. exact Hne.
  - intros Hz [Hlo Hhi]. split.
    + rewrite <- H0. apply longFromTilePosition_mono, Hlo.
    + rewrite <- (H1 Hz). apply longFromTilePosition_mono, Hhi.
Qed.

Lemma longFromTilePosition_range_witness :
  0 ≤ 5 ∧ 0 ≤ 8 ≤ 2 ^ 5
  ∧ (-180 <= longFromTilePosition 8 5)%Q
  ∧ (longFromTilePosition 8 5 <= 180)%Q.
Proof.
  assert (Hz : 0 ≤ 5) by lia.
  assert (Hc : 0 ≤ 8 ≤ 2 ^ 5) by (cbn; lia).
  refine (conj Hz (conj Hc _)).
  exact (proj2 (proj2 (proj2 (proj2 (longFromTilePosition_range 8 8 5)))) Hz Hc).
Defined.
